(** * cdc-bot: the slot filter, the refresh-mode scheduler and the booking loop

    A shallow embedding of the decision code of the bot:
    - [filter_practical_slots] of [website/booking_checker.py],
    - the class [RefreshMode] of [utils/refreshmode.py],
    - [sleep_random] of [utils/common.py],
    - the polling loop of [main] in [main.py], with its reservation loop.

    Python dictionaries and sets are finite maps and sets ([gmap], [gset]),
    Python [int]s are [Z], exceptions are the left summand of a sum, and the
    outside world (the portal, the chat channel, the clock, the random
    generator) is passed explicitly. *)

From Stdlib Require Import ZArith QArith String Ascii List Lia.
From stdpp Require Import base option list strings gmap pretty.

Local Open Scope string_scope.
Local Open Scope list_scope.
Local Open Scope stdpp_scope.
Local Open Scope Z_scope.

(** ** Exceptions *)

(** The exceptions that the modelled code can raise.  [ValueError] comes from
    [datetime.strptime] and [random.randint]; [PortalError] stands for any
    exception escaping a call to the browser.  The text of a message is not
    Python's. *)
Inductive exn : Type :=
  | ValueError (msg : string)
  | PortalError (msg : string).

(** ** Text helpers *)

Module Text.

Definition is_digit (c : ascii) : bool :=
  let n := nat_of_ascii c in (48 <=? n)%nat && (n <=? 57)%nat.

Definition digit_value (c : ascii) : Z := Z.of_nat (nat_of_ascii c) - 48.

(** [str.upper()] on the ASCII letters; every other byte is kept. *)
Definition upper_ascii (c : ascii) : ascii :=
  let n := nat_of_ascii c in
  if (97 <=? n)%nat && (n <=? 122)%nat then ascii_of_nat (n - 32) else c.

Fixpoint upper (s : string) : string :=
  match s with
  | EmptyString => EmptyString
  | String c r => String (upper_ascii c) (upper r)
  end.

(** [s[:n]] for a non-negative [n]. *)
Fixpoint prefix (n : nat) (s : string) : string :=
  match n, s with
  | O, _ => EmptyString
  | S _, EmptyString => EmptyString
  | S k, String c r => String c (prefix k r)
  end.

(** The fields of [s] between occurrences of the separator [sep]. *)
Fixpoint split_on (sep : ascii) (s : string) : list string :=
  match s with
  | EmptyString => [EmptyString]
  | String c r =>
      if Ascii.eqb c sep then EmptyString :: split_on sep r
      else match split_on sep r with
           | [] => [String c EmptyString]
           | f :: fs => String c f :: fs
           end
  end.

Fixpoint zeros (n : nat) : string :=
  match n with
  | O => EmptyString
  | S k => String "0" (zeros k)
  end.

(** [str(z)] for an [int]. *)
Definition of_Z (z : Z) : string := pretty z.

(** A non-negative number, padded with zeros on the left to [width]. *)
Definition padded (width : nat) (z : Z) : string :=
  let d := of_Z z in zeros (width - String.length d) +:+ d.

End Text.

(** ** Calendar dates

    The part of Python's [datetime] that the filter uses: parsing with the
    format ["%d/%b/%Y"], and printing with ["%Y-%m-%d"] and
    ["%d %b %Y, %a"] (C locale, ASCII input). *)

Module Datetime.

Record date : Type := mkdate { year : Z; month : Z; day : Z }.

Definition is_leap (y : Z) : bool :=
  (y mod 4 =? 0) && (negb (y mod 100 =? 0) || (y mod 400 =? 0)).

Definition days_in_month (y m : Z) : Z :=
  if m =? 2 then (if is_leap y then 29 else 28)
  else if (m =? 4) || (m =? 6) || (m =? 9) || (m =? 11) then 30
  else 31.

(** The check of the [datetime] constructor. *)
Definition valid (d : date) : bool :=
  (1 <=? year d) && (year d <=? 9999) &&
  (1 <=? month d) && (month d <=? 12) &&
  (1 <=? day d) && (day d <=? days_in_month (year d) (month d)).

Definition month_abbr : list string :=
  ["Jan"; "Feb"; "Mar"; "Apr"; "May"; "Jun";
   "Jul"; "Aug"; "Sep"; "Oct"; "Nov"; "Dec"].

Definition day_abbr : list string :=
  ["Mon"; "Tue"; "Wed"; "Thu"; "Fri"; "Sat"; "Sun"].

(** The directive [%d]: one of [3[0-1]], [[1-2]\d], [0[1-9]], [[1-9]] and
    a blank followed by [[1-9]]. *)
Definition parse_day (s : string) : option Z :=
  match s with
  | String a EmptyString =>
      if Text.is_digit a && negb (Ascii.eqb a "0")
      then Some (Text.digit_value a) else None
  | String a (String b EmptyString) =>
      if Ascii.eqb a " " then
        if Text.is_digit b && negb (Ascii.eqb b "0")
        then Some (Text.digit_value b) else None
      else if Text.is_digit a && Text.is_digit b then
        let v := 10 * Text.digit_value a + Text.digit_value b in
        if (1 <=? v) && (v <=? 31) then Some v else None
      else None
  | _ => None
  end.

Fixpoint index_of (x : string) (l : list string) (i : Z) : option Z :=
  match l with
  | [] => None
  | y :: r => if String.eqb x y then Some i else index_of x r (i + 1)
  end.

(** The directive [%b]: an abbreviated month name, in any case. *)
Definition parse_month (s : string) : option Z :=
  index_of (Text.upper s) (map Text.upper month_abbr) 1.

(** The directive [%Y]: exactly four digits. *)
Definition parse_year (s : string) : option Z :=
  match s with
  | String a (String b (String c (String d EmptyString))) =>
      if Text.is_digit a && Text.is_digit b && Text.is_digit c && Text.is_digit d
      then Some (1000 * Text.digit_value a + 100 * Text.digit_value b
                 + 10 * Text.digit_value c + Text.digit_value d)
      else None
  | _ => None
  end.

(** [datetime.strptime(s, "%d/%b/%Y")]; [None] stands for [ValueError]. *)
Definition strptime (s : string) : option date :=
  match Text.split_on "/" s with
  | [d; m; y] =>
      match parse_day d, parse_month m, parse_year y with
      | Some dd, Some mm, Some yy =>
          let r := mkdate yy mm dd in
          if valid r then Some r else None
      | _, _, _ => None
      end
  | _ => None
  end.

(** [d.strftime("%Y-%m-%d")]. *)
Definition isoformat (d : date) : string :=
  Text.padded 4 (year d) +:+ "-" +:+ Text.padded 2 (month d) +:+ "-"
    +:+ Text.padded 2 (day d).

Definition days_before_year (y : Z) : Z :=
  let p := y - 1 in p * 365 + p / 4 - p / 100 + p / 400.

Fixpoint days_before_month_go (y : Z) (m : nat) : Z :=
  match m with
  | O => 0
  | S k => days_before_month_go y k + days_in_month y (Z.of_nat (S k))
  end.

Definition days_before_month (y m : Z) : Z :=
  days_before_month_go y (Z.to_nat (m - 1)).

Definition toordinal (d : date) : Z :=
  days_before_year (year d) + days_before_month (year d) (month d) + day d.

(** [d.weekday()]: Monday is 0. *)
Definition weekday (d : date) : Z := (toordinal d + 6) mod 7.

Definition nth_name (l : list string) (i : Z) : string :=
  nth (Z.to_nat i) l "".

(** [d.strftime("%d %b %Y, %a")]. *)
Definition long_format (d : date) : string :=
  Text.padded 2 (day d) +:+ " " +:+ nth_name month_abbr (month d - 1) +:+ " "
    +:+ Text.padded 4 (year d) +:+ ", " +:+ nth_name day_abbr (weekday d).

End Datetime.

(** ** The notification channel

    [TelegramBot.send(message, notifyOff=True)]: the model keeps the messages
    handed to the bot, in order. *)

Record message : Type := mkmessage { text : string; notifyOff : bool }.

Definition outbox : Type := list message.

Definition send (out : outbox) (msg : string) (silent : bool) : outbox :=
  out ++ [mkmessage msg silent].

(** ** Slots, bookings and the configuration *)

(** A slot as [LessonHandler.get_slot_statuses] builds it. *)
Record slot : Type := mkslot {
  date : string;
  dayname : string;
  session : Z;
  status : string;
  element_id : string
}.

(** An entry of [get_all_manual_bookings]: the date is a parsed [datetime]. *)
Record booking : Type := mkbooking {
  booking_date : Datetime.date;
  booking_session : Z
}.

(** The keys of [config.yaml] that the modelled code reads; [None] is an
    absent key. *)
Record config : Type := mkconfig {
  cfg_one_slot_per_day : option bool;
  cfg_excluded_dates : option (list string);
  cfg_non_peak_sessions : option (list Z);
  cfg_allowed_sessions : option (gmap string (list Z));
  cfg_included_dates : option (gmap string (list Z));
  cfg_auto_book : option bool;
  cfg_dry_run : option bool
}.

Module Filter.

(** The local variables that [filter_practical_slots] sets up before its
    loop. *)
Record locals : Type := mklocals {
  one_slot_per_day : bool;
  excluded_dates : gset string;
  non_peak_sessions : gset Z;
  allowed_sessions : gmap string (gset Z);
  included_dates_sessions : gmap string (gset Z);
  booked_slots : gmap string Z
}.

Definition to_set (l : list Z) : gset Z := list_to_set l.

(** The dict comprehension over [existing_bookings]: a later booking of a
    date replaces an earlier one. *)
Definition booked_slots_of (existing_bookings : list booking) : gmap string Z :=
  foldl (fun m b => <[Datetime.isoformat (booking_date b) := booking_session b]> m)
        ∅ existing_bookings.

Definition extract (cfg : config) (existing_bookings : list booking) : locals :=
  {| one_slot_per_day := default false (cfg_one_slot_per_day cfg);
     excluded_dates := list_to_set (default [] (cfg_excluded_dates cfg));
     non_peak_sessions := to_set (default [1; 3; 4] (cfg_non_peak_sessions cfg));
     allowed_sessions := to_set <$> default ∅ (cfg_allowed_sessions cfg);
     included_dates_sessions := to_set <$> default ∅ (cfg_included_dates cfg);
     booked_slots := booked_slots_of existing_bookings |}.

(** The variables that the loop updates. *)
Record loop_state : Type := mkloop {
  filtered : list slot;
  dates_with_a_found_slot : gset string;
  sent : outbox
}.

Definition initial : loop_state :=
  {| filtered := []; dates_with_a_found_slot := ∅; sent := [] |}.

Definition nl : string := String (ascii_of_nat 10) EmptyString.

Definition upgrade_message (slot_date_obj : Datetime.date)
    (session booked_session : Z) : string :=
  "Found an earlier non-peak slot on a booked date!" +:+ nl
  +:+ "Date: " +:+ Datetime.long_format slot_date_obj +:+ nl
  +:+ "New Slot: Session " +:+ Text.of_Z session +:+ nl
  +:+ "Current Slot: Session " +:+ Text.of_Z booked_session +:+ nl +:+ nl
  +:+ "Note: You must cancel your existing booking for this day before booking the new one.".

(** [filtered.append(slot); dates_with_a_found_slot.add(date_str)] *)
Definition keep (st : loop_state) (s : slot) (date_str : string) : loop_state :=
  {| filtered := filtered st ++ [s];
     dates_with_a_found_slot := dates_with_a_found_slot st ∪ {[date_str]};
     sent := sent st |}.

Definition notify (st : loop_state) (msg : string) : loop_state :=
  {| filtered := filtered st;
     dates_with_a_found_slot := dates_with_a_found_slot st;
     sent := send (sent st) msg true |}.

(** One iteration of the loop over [slots]; [continue] is the unchanged
    state, and a date that does not parse raises. *)
Definition body (L : locals) (st : loop_state) (s : slot) : exn + loop_state :=
  match Datetime.strptime (date s) with
  | None => inl (ValueError "time data does not match format")
  | Some slot_date_obj =>
      let date_str := Datetime.isoformat slot_date_obj in
      let weekday := Text.upper (Text.prefix 3 (dayname s)) in
      let session := session s in
      (* 1. One slot per day check *)
      if one_slot_per_day L && bool_decide (date_str ∈ dates_with_a_found_slot st)
      then inr st
      else
        (* 2. Check against existing bookings *)
        match booked_slots L !! date_str with
        | Some booked_session =>
            if (session <? booked_session)
               && bool_decide (session ∈ non_peak_sessions L)
            then inr (keep (notify st (upgrade_message slot_date_obj session
                                         booked_session)) s date_str)
            else inr st
        | None =>
            (* 3. Included Dates (Overrides exclusions) *)
            match included_dates_sessions L !! date_str with
            | Some sessions =>
                if bool_decide (session ∈ sessions)
                then inr (keep st s date_str)
                else inr st
            | None =>
                (* 4. Excluded Dates *)
                if bool_decide (date_str ∈ excluded_dates L) then inr st
                else
                  (* 5. Allowed Days/Sessions *)
                  let allowed_sessions_for_day :=
                    default ∅ (allowed_sessions L !! weekday) in
                  if bool_decide (allowed_sessions_for_day = ∅)
                     || negb (bool_decide (session ∈ allowed_sessions_for_day))
                  then inr st
                  else inr (keep st s date_str)
            end
        end
  end.

(** The [for] loop: the state when it ends, and the exception that ended
    it, if any. *)
Fixpoint loop (L : locals) (st : loop_state) (slots : list slot)
    : option exn * loop_state :=
  match slots with
  | [] => (None, st)
  | s :: rest =>
      match body L st s with
      | inl e => (Some e, st)
      | inr st' => loop L st' rest
      end
  end.

(** The result of a call: what it returns or raises, and the messages that
    it gave to the bot. *)
Definition filter_practical_slots (slots : list slot) (cfg : config)
    (existing_bookings : list booking) : (exn + list slot) * outbox :=
  let '(r, st) := loop (extract cfg existing_bookings) initial slots in
  (match r with Some e => inl e | None => inr (filtered st) end, sent st).

(** The locals with other dates and sessions in rules 3 to 5. *)
Definition with_rules (L : locals) (included : gmap string (gset Z))
    (excluded : gset string) (allowed : gmap string (gset Z)) : locals :=
  {| one_slot_per_day := one_slot_per_day L;
     excluded_dates := excluded;
     non_peak_sessions := non_peak_sessions L;
     allowed_sessions := allowed;
     included_dates_sessions := included;
     booked_slots := booked_slots L |}.

(** The key under which the loop files a slot. *)
Definition date_str_of (s : slot) : option string :=
  Datetime.isoformat <$> Datetime.strptime (date s).

(** Some slot of [l] is filed under [date_str]. *)
Definition date_taken (l : list slot) (date_str : string) : Prop :=
  Exists (fun s => date_str_of s = Some date_str) l.

(** What an iteration can do to the state. *)
Inductive verdict (st : loop_state) (s : slot) : loop_state -> Prop :=
  | skipped : verdict st s st
  | matched d :
      Datetime.strptime (date s) = Some d ->
      verdict st s (keep st s (Datetime.isoformat d))
  | upgraded d msg :
      Datetime.strptime (date s) = Some d ->
      verdict st s (keep (notify st msg) s (Datetime.isoformat d)).

(** The set of dates of the loop holds the dates of the slots kept. *)
Definition dates_agree (st : loop_state) : Prop :=
  forall k, k ∈ dates_with_a_found_slot st <-> date_taken (filtered st) k.

(** The slots of [l] that are filed under [k]. *)
Definition on_date (k : string) (l : list slot) : list slot :=
  base.filter (fun s => date_str_of s = Some k) l.

(** The per-day check keeps the dates of the slots kept apart. *)
Definition one_per_date (st : loop_state) : Prop :=
  dates_agree st
  /\ forall k, (length (on_date k (filtered st)) <= 1)%nat.

(** The slots of [l] whose date is spelled [raw]. *)
Definition spelled (raw : string) (l : list slot) : list slot :=
  base.filter (fun s => date s = raw) l.

End Filter.

(** ** Random numbers and the clock

    [random] is a generator that hands out the raw 53-bit draws of a
    source one after the other.  [time.time()] is a number of seconds; the
    caller passes the reading. *)

Module Random.

Record generator : Type := mkgen { source : nat -> Z; position : nat }.

Definition raw (g : generator) : Z := source g (position g) mod 2 ^ 53.

Definition advance (g : generator) : generator :=
  {| source := source g; position := S (position g) |}.

(** [random.randint(a, b)]: [a + randbelow(b - a + 1)], and [ValueError]
    for an empty range.  The generator is only advanced by a draw. *)
Definition randint (a b : Z) (g : generator) : exn + (Z * generator) :=
  let width := b - a + 1 in
  if width <=? 0 then inl (ValueError "empty range for randrange()")
  else inr (a + raw g mod width, advance g).

(** [random.random()]: a multiple of [2^-53] in [[0, 1)]. *)
Definition random (g : generator) : Q * generator :=
  (Qmake (raw g) (2 ^ 53), advance g).

(** [random.uniform(a, b)]: [a + (b - a) * random()], as the exact value.
    The code rounds this value to a float, which can give the upper end [b]
    itself for the largest draw; what is proved of the delays is therefore
    stated for the closed interval from [a] to [b], which the rounding
    keeps. *)
Definition uniform (a b : Q) (g : generator) : Q * generator :=
  let '(u, g') := random g in ((a + (b - a) * u)%Q, g').

End Random.

(** ** The refresh mode *)

Module RefreshMode.

Record t : Type := mk {
  probe_mode : bool;
  aggressive_cycles : Z;
  probe_start : option Q;
  probe_duration : Q;
  aggro_range : Z * Z
}.

(** [__init__(self, probe_duration=10, aggro_range=(6, 8))] *)
Definition init (probe_duration : Q) (aggro_range : Z * Z) : t :=
  {| probe_mode := false;
     aggressive_cycles := 0;
     probe_start := None;
     probe_duration := probe_duration;
     aggro_range := aggro_range |}.

(** [RefreshMode()], as [main] builds it. *)
Definition default : t := init 10%Q (6, 8).

Definition in_probe (self : t) : bool := probe_mode self.

Definition in_aggressive (self : t) : bool := 0 <? aggressive_cycles self.

Definition set_aggressive_cycles (self : t) (n : Z) : t :=
  {| probe_mode := probe_mode self;
     aggressive_cycles := n;
     probe_start := probe_start self;
     probe_duration := probe_duration self;
     aggro_range := aggro_range self |}.

Definition set_probe (self : t) (mode : bool) (start : option Q) : t :=
  {| probe_mode := mode;
     aggressive_cycles := aggressive_cycles self;
     probe_start := start;
     probe_duration := probe_duration self;
     aggro_range := aggro_range self |}.

Definition trigger_aggressive_mode (self : t) (g : Random.generator)
    : exn + (t * Random.generator) :=
  if aggressive_cycles self <? 4 then
    match Random.randint (fst (aggro_range self)) (snd (aggro_range self)) g with
    | inl e => inl e
    | inr (n, g') => inr (set_aggressive_cycles self n, g')
    end
  else inr (self, g).

(** [on_slot_detected]; the arguments are the truth values of the two
    lists that [main] passes, and [now] is what [time.time()] returns. *)
Definition on_slot_detected (self : t) (slots_found filtered_slots_found : bool)
    (now : Q) (g : Random.generator) : exn + (string * t * Random.generator) :=
  if filtered_slots_found then
    match trigger_aggressive_mode self g with
    | inl e => inl e
    | inr (self', g') => inr ("aggressive", set_probe self' false None, g')
    end
  else if slots_found && negb (in_aggressive self) then
    if negb (probe_mode self)
    then inr ("probe", set_probe self true (Some now), g)
    else inr ("none", self, g)
  else inr ("none", self, g).

Definition tick (self : t) (now : Q) : t :=
  let self1 :=
    if 0 <? aggressive_cycles self
    then set_aggressive_cycles self (aggressive_cycles self - 1)
    else self in
  match probe_mode self1, probe_start self1 with
  | true, Some start =>
      let elapsed_time := (now - start)%Q in
      if negb (Qle_bool elapsed_time (probe_duration self1))
      then set_probe self1 false None
      else self1
  | _, _ => self1
  end.

(** The three cadences that [sleep_random] tells apart, in its order. *)
Inductive mode : Type := Aggressive | Probe | Normal.

Definition mode_of (self : t) : mode :=
  if in_aggressive self then Aggressive
  else if in_probe self then Probe
  else Normal.

(** The operations that a client can call on a scheduler. *)
Inductive step : t -> t -> Prop :=
  | step_on_slot_detected self slots_found filtered_slots_found now g r self' g' :
      on_slot_detected self slots_found filtered_slots_found now g
        = inr (r, self', g') ->
      step self self'
  | step_tick self now :
      step self (tick self now).

(** The state invariant, with the facts that carry it through the steps. *)
Definition consistent (self : t) : Prop :=
  (is_Some (probe_start self) <-> probe_mode self = true)
  /\ 0 <= aggressive_cycles self
  /\ (probe_mode self = true -> aggressive_cycles self = 0)
  /\ 0 <= fst (aggro_range self).

Inductive reachable (start : t) : t -> Prop :=
  | reachable_init : reachable start start
  | reachable_step self self' :
      reachable start self -> step self self' -> reachable start self'.

End RefreshMode.

(** The variable [delay] of [sleep_random]: the base sleep of the mode. *)
Definition base_delay (refresh_mode : RefreshMode.t) (g : Random.generator)
    : Q * Random.generator :=
  if RefreshMode.in_aggressive refresh_mode then Random.uniform 2 4 g
  else if RefreshMode.in_probe refresh_mode then Random.uniform 5 9 g
  else Random.uniform 13 40 g.

(** [sleep_random(refresh_mode, backoff_multiplier)]: the delay that is
    slept, and the generator after the draw. *)
Definition sleep_random (refresh_mode : RefreshMode.t) (backoff_multiplier : Q)
    (g : Random.generator) : Q * Random.generator :=
  let '(delay, g') := base_delay refresh_mode g in
  let actual_delay := (delay * backoff_multiplier)%Q in
  (actual_delay, g').

(** ** The polling loop of [main]

    The portal and the chat channel are an outside world [W] with one
    transition per call.  What the loop does to the world is kept as a trace
    of events. *)

Inductive event : Type :=
  | Sent (m : message)
  | SleptRandom (delay backoff_multiplier : Q)
  | Slept (seconds : Q)
  | Reserve (element_id : string) (result : string)
  | Confirm (ok : bool)
  | Command (cmd : string)
  | Logout.

(** The [(element_id, result)] of each call to [reserve_slot] in a trace. *)
Fixpoint reservations (tr : list event) : list (string * string) :=
  match tr with
  | [] => []
  | Reserve i r :: rest => (i, r) :: reservations rest
  | _ :: rest => reservations rest
  end.

(** The reservations of a cycle against its candidates: they follow the
    candidates one by one, and an answer "no_change" is the last one. *)
Inductive attempts : list slot -> list (string * string) -> Prop :=
  | attempts_none : attempts [] []
  | attempts_stop s rest :
      attempts (s :: rest) [(element_id s, "no_change")]
  | attempts_next s rest r log :
      r <> "no_change" ->
      attempts rest log ->
      attempts (s :: rest) ((element_id s, r) :: log).

(** The backoff multiplier of each call to [sleep_random] in a trace. *)
Fixpoint multipliers (tr : list event) : list Q :=
  match tr with
  | [] => []
  | SleptRandom _ m :: rest => m :: multipliers rest
  | _ :: rest => multipliers rest
  end.

(** The outside world of the loop: the portal, the chat channel and the
    clock, as a state [W] with one transition per call. *)
Class Outside (W : Type) : Type := {
  (** [bot.check_commands()]: it catches its own exceptions. *)
  check_commands : W -> option string * W;
  (** The reply to the command "screen": [anonymize_fields],
      [tab.save_screenshot] and [bot.send_photo]. *)
  screenshot : W -> (exn + unit) * W;
  (** [tab.reload()], [cloudflare_handler], [parser.select_course()] and
      [parser.get_slot_statuses()]: the slots, or the exception that
      escapes. *)
  get_slot_statuses : W -> (exn + list slot) * W;
  (** [parser.reserve_slot(element_id)]: it catches its own exceptions. *)
  reserve_slot : string -> W -> (string * string) * W;
  (** [parser.confirm_booking()]: it catches its own exceptions. *)
  confirm_booking : W -> bool * W;
  (** [get_all_manual_bookings(tab, name, display_name)] *)
  get_all_manual_bookings : W -> list booking * W;
  (** [time.time()] and [asyncio.sleep] *)
  time_time : W -> Q;
  asyncio_sleep : Q -> W -> W;
  (** [open_practical_safe(parser, tab, bot)] and [parser.open_logout()] *)
  open_practical_safe : W -> (exn + unit) * W;
  open_logout : W -> (exn + unit) * W
}.

Module Main.

(** The local variables of [main] that live across cycles. *)
Record vars : Type := mkvars {
  refresh_mode : RefreshMode.t;
  backoff_multiplier : Q;
  all_manual_bookings : list booking;
  cycle_counter : Z;
  slot_found_counter : Z
}.

(** How an iteration of [while True] ends. *)
Inductive control : Type :=
  | Continue (v : vars)
  | Break (v : vars).

Definition vars_of (c : control) : vars :=
  match c with Continue v | Break v => v end.

(** [b["date"].strftime("%d/%b/%Y")] in [is_slot_confirmed], with the year
    in four digits.  For a year below 1000 the digits of [%Y] depend on the
    C library (glibc prints such a year without the zeros in front); from
    the year 1000 on all print the same. *)
Definition portal_format (d : Datetime.date) : string :=
  Text.padded 2 (Datetime.day d) +:+ "/"
  +:+ Datetime.nth_name Datetime.month_abbr (Datetime.month d - 1) +:+ "/"
  +:+ Text.padded 4 (Datetime.year d).

Definition slot_text (s : slot) : string :=
  date s +:+ ", Session " +:+ Text.of_Z (session s) +:+ ", Day: " +:+ dayname s.

Section Loop.

Context {W : Type} `{!Outside W}.

Variable cfg : config.

Record env : Type := mkenv {
  world : W;
  rng : Random.generator;
  trace : list event
}.

(** Computations that change the environment and may raise. *)
Definition M (A : Type) : Type := env -> (exn + A) * env.

Definition ret {A} (a : A) : M A := fun e => (inr a, e).

Definition bind {A B} (m : M A) (k : A -> M B) : M B :=
  fun e => match m e with
           | (inl x, e') => (inl x, e')
           | (inr a, e') => k a e'
           end.

#[local] Instance M_ret : MRet M := @ret.
#[local] Instance M_bind : MBind M := fun A B k m => bind m k.

Definition emit (ev : event) : M unit :=
  fun e => (inr tt, {| world := world e; rng := rng e;
                       trace := trace e ++ [ev] |}).

(** A call to the world that cannot raise. *)
Definition call {A} (f : W -> A * W) : M A :=
  fun e => let '(a, w) := f (world e) in
           (inr a, {| world := w; rng := rng e; trace := trace e |}).

Definition bot_send (msg : string) (silent : bool) : M unit :=
  emit (Sent (mkmessage msg silent)).

(** A call to the world that may raise. *)
Definition call_exn {A} (f : W -> (exn + A) * W) : M A :=
  fun e => let '(r, w) := f (world e) in
           (r, {| world := w; rng := rng e; trace := trace e |}).

Definition do_sleep_random (rm : RefreshMode.t) (backoff : Q) : M unit :=
  fun e => let '(actual_delay, g) := sleep_random rm backoff (rng e) in
           (inr tt, {| world := asyncio_sleep actual_delay (world e); rng := g;
                       trace := trace e
                                ++ [SleptRandom (fst (base_delay rm (rng e)))
                                      backoff] |}).

Definition do_sleep (seconds : Q) : M unit :=
  fun e => (inr tt, {| world := asyncio_sleep seconds (world e); rng := rng e;
                       trace := trace e ++ [Slept seconds] |}).

Definition do_reserve_slot (element_id : string) : M (string * string) :=
  r ← call (reserve_slot element_id);
  emit (Reserve element_id (fst r));;
  mret r.

Definition do_confirm_booking : M bool :=
  ok ← call confirm_booking;
  emit (Confirm ok);;
  mret ok.

(** [filter_practical_slots(all_slots, config, all_manual_bookings, bot)]
    inside the loop: its messages go to the trace. *)
Definition do_filter (all_slots : list slot) (bookings : list booking)
    : M (list slot) :=
  fun e =>
    let '(r, out) := Filter.filter_practical_slots all_slots cfg bookings in
    (r, {| world := world e; rng := rng e;
           trace := trace e ++ map Sent out |}).

Definition do_on_slot_detected (rm : RefreshMode.t)
    (slots_found filtered_slots_found : bool)
    : M (string * RefreshMode.t) :=
  fun e =>
    match RefreshMode.on_slot_detected rm slots_found filtered_slots_found
            (time_time (world e)) (rng e) with
    | inl x => (inl x, e)
    | inr (r, rm', g) =>
        (inr (r, rm'), {| world := world e; rng := g; trace := trace e |})
    end.

(** [is_slot_confirmed(tab, target_date, target_session, name)] *)
Definition is_slot_confirmed (target_date : string) (target_session : Z)
    : M bool :=
  bookings ← call get_all_manual_bookings;
  mret (existsb (fun b => String.eqb (portal_format (booking_date b)) target_date
                         && (booking_session b =? target_session))
               bookings).

(** Lines 251 to 280: [for slot in filtered], with [booked_slots] the
    list built so far. *)
Fixpoint reserve_loop (auto_book : bool) (filtered booked_slots : list slot)
    : M (list slot) :=
  match filtered with
  | [] => mret booked_slots
  | s :: rest =>
      bot_send ("[🔍] Trying to book: " +:+ slot_text s) false;;
      '(result, addtionaltxt) ← do_reserve_slot (element_id s);
      if String.eqb result "success" then
        bot_send ("[✔] Reserved: " +:+ slot_text s) false;;
        (if auto_book then
           ok ← do_confirm_booking;
           if negb ok
           then bot_send "Auto-confirm booking failed. Please confirm manually." false
           else bot_send "Auto-confirm enabled, booking has been confirmed." false
         else mret tt);;
        reserve_loop auto_book rest (booked_slots ++ [s])
      else if String.eqb result "no_change" then
        mret booked_slots
      else if String.eqb result "alert" then
        bot_send ("Alert detected: " +:+ addtionaltxt
                  +:+ ". Please check manually. This slot will be skipped until resolved.")
                 false;;
        reserve_loop auto_book rest booked_slots
      else
        reserve_loop auto_book rest booked_slots
  end.

(** What the portal answers to the loop over [candidates] that starts in
    the world [w]: for each call, the [element_id] that [reserve_slot] is
    given and the result that it returns, in the world that the calls before
    it have left (the call itself and, with auto_book, the call to
    [confirm_booking] after a "success").  The answer "no_change" is the
    last one. *)
Fixpoint portal_answers (auto_book : bool) (candidates : list slot) (w : W)
    : list (string * string) :=
  match candidates with
  | [] => []
  | s :: rest =>
      let '((result, _), w1) := reserve_slot (element_id s) w in
      (element_id s, result)
      :: (if String.eqb result "success" then
            portal_answers auto_book rest
              (if auto_book then snd (confirm_booking w1) else w1)
          else if String.eqb result "no_change" then []
          else portal_answers auto_book rest w1)
  end.

Definition set_bookings (v : vars) (l : list booking) : vars :=
  {| refresh_mode := refresh_mode v;
     backoff_multiplier := backoff_multiplier v;
     all_manual_bookings := l;
     cycle_counter := cycle_counter v;
     slot_found_counter := slot_found_counter v |}.

Definition set_refresh_mode (v : vars) (rm : RefreshMode.t) : vars :=
  {| refresh_mode := rm;
     backoff_multiplier := backoff_multiplier v;
     all_manual_bookings := all_manual_bookings v;
     cycle_counter := cycle_counter v;
     slot_found_counter := slot_found_counter v |}.

Definition count_cycle (v : vars) : vars :=
  {| refresh_mode := refresh_mode v;
     backoff_multiplier := backoff_multiplier v;
     all_manual_bookings := all_manual_bookings v;
     cycle_counter := cycle_counter v + 1;
     slot_found_counter := slot_found_counter v |}.

Definition count_slot_found (v : vars) : vars :=
  {| refresh_mode := refresh_mode v;
     backoff_multiplier := backoff_multiplier v;
     all_manual_bookings := all_manual_bookings v;
     cycle_counter := cycle_counter v;
     slot_found_counter := slot_found_counter v + 1 |}.

(** Lines 289 to 307: [for slot in booked_slots], with the flag [booked]. *)
Fixpoint confirm_loop (booked_slots : list slot) (v : vars) (booked : bool)
    : M (vars * bool) :=
  match booked_slots with
  | [] => mret (v, booked)
  | s :: rest =>
      confirmed ← is_slot_confirmed (date s) (session s);
      if confirmed : bool then
        bot_send ("[✔] Booking confirmed: " +:+ slot_text s) false;;
        updated ← call get_all_manual_bookings;
        confirm_loop rest
          (match updated with [] => v | _ :: _ => set_bookings v updated end)
          true
      else
        bot_send ("[X] Not confirmed: " +:+ slot_text s
                  +:+ " — please confirm manually and restart bot for updated bookings.")
                 false;;
        confirm_loop rest v booked
  end.

(** Lines 242 to 245: the messages of a dry run. *)
Fixpoint dry_run_loop (filtered : list slot) : M unit :=
  match filtered with
  | [] => mret tt
  | s :: rest =>
      bot_send ("Dry run enabled. Would book " +:+ date s +:+ " session "
                +:+ Text.of_Z (session s) +:+ " (" +:+ dayname s +:+ ")") true;;
      dry_run_loop rest
  end.

Definition nonempty {A} (l : list A) : bool :=
  match l with [] => false | _ :: _ => true end.

Definition end_of_cycle (v : vars) : M control :=
  do_sleep_random (refresh_mode v) (backoff_multiplier v);;
  mret (Continue (count_cycle v)).

(** Lines 176 to 191: the commands other than "stop".  The replies are
    kept as one event each; the screenshot may raise. *)
Definition handle_command (cmd : option string) : M unit :=
  match cmd with
  | Some c =>
      if String.eqb c "status" then emit (Command c)
      else if String.eqb c "screen" then
        call_exn screenshot;;
        emit (Command c)
      else if String.eqb c "stats" then emit (Command c)
      else mret tt
  | None => mret tt
  end.

(** Lines 238 to 316: what is done with a non-empty list [filtered]. *)
Definition book (v : vars) (filtered : list slot) : M control :=
  let dry_run := default false (cfg_dry_run cfg) in
  let auto_book := default false (cfg_auto_book cfg) in
  if dry_run then
    dry_run_loop filtered;;
    mret (Break v)
  else
    booked_slots ← reserve_loop auto_book filtered [];
    '(v, booked) ←
      (if nonempty booked_slots && negb (dry_run || auto_book) then
         bot_send ("You have booked "
                   +:+ Text.of_Z (Z.of_nat (length booked_slots))
                   +:+ " slots. Please confirm them within 3 minutes.") false;;
         do_sleep 180;;
         r ← confirm_loop booked_slots v false;
         call_exn open_practical_safe;;
         mret r
       else mret (v, false));
    if negb booked then end_of_cycle v else mret (Continue v).

(** Lines 208 to 316: what is done with the slots of the page. *)
Definition act (v : vars) (all_slots : list slot) : M control :=
  if nonempty all_slots then
    let v := count_slot_found v in
    filtered ← do_filter all_slots (all_manual_bookings v);
    '(current_mode, rm) ← do_on_slot_detected (refresh_mode v)
                            (nonempty all_slots) (nonempty filtered);
    let v := set_refresh_mode v rm in
    if negb (nonempty filtered) then end_of_cycle v
    else book v filtered
  else end_of_cycle v.

(** The body of [while True], lines 165 to 316. *)
Definition cycle (v : vars) : M control :=
  cmd ← call check_commands;
  if bool_decide (cmd = Some "stop") then
    call_exn open_logout;;
    emit Logout;;
    bot_send "Bot stopped via /stop command." false;;
    mret (Break v)
  else
    handle_command cmd;;
    all_slots ← call_exn get_slot_statuses;
    act v all_slots.

(** [while True], for at most [fuel] iterations: [Continue v] is a loop
    that is still running, [Break v] one that was left, and an exception
    leaves [main] through its handler. *)
Fixpoint while_true (fuel : nat) (v : vars) : M control :=
  match fuel with
  | O => mret (Continue v)
  | S n =>
      c ← cycle v;
      match c with
      | Break v' => mret (Break v')
      | Continue v' => while_true n v'
      end
  end.

(** The variables when the loop is entered (lines 95, 102, 114, 156
    and 158). *)
Definition start (bookings : list booking) : vars :=
  {| refresh_mode := RefreshMode.default;
     backoff_multiplier := 1;
     all_manual_bookings := bookings;
     cycle_counter := 0;
     slot_found_counter := 0 |}.

(** [main] from the first query of the bookings on; the login and the
    check of the stored value come before and are not modelled. *)
Definition main (fuel : nat) : M control :=
  bookings ← call get_all_manual_bookings;
  call_exn open_practical_safe;;
  while_true fuel (start bookings).

(** The reservations of the part [book] that starts in the world [w]:
    none in a dry run, and else the answers of the portal to the
    candidates. *)
Definition book_log (filtered : list slot) (w : W)
    (log : list (string * string)) : Prop :=
  if default false (cfg_dry_run cfg) then log = []
  else attempts filtered log
       /\ log = portal_answers (default false (cfg_auto_book cfg)) filtered w.

(** The reservations of the part [act] on the slots [all_slots], when
    the world is [w], the clock shows [now] and the generator is [g]: those
    of the candidates that the filter returns, and none when there are no
    slots or when the filter or the refresh mode raises. *)
Definition act_log (v : vars) (all_slots : list slot) (w : W) (now : Q)
    (g : Random.generator) (log : list (string * string)) : Prop :=
  if nonempty all_slots then
    match Filter.filter_practical_slots all_slots cfg (all_manual_bookings v) with
    | (inl _, _) => log = []
    | (inr candidates, _) =>
        match RefreshMode.on_slot_detected (refresh_mode v) true
                (nonempty candidates) now g with
        | inl _ => log = []
        | inr _ => book_log candidates w log
        end
    end
  else log = [].

(** The reservations of a whole cycle: none when it is stopped or when the
    reply to a command or the page raises. *)
Definition cycle_log (v : vars) (e : env) (log : list (string * string))
    : Prop :=
  let '(cmd, w1) := check_commands (world e) in
  if bool_decide (cmd = Some "stop") then log = []
  else
    match handle_command cmd {| world := w1; rng := rng e; trace := trace e |} with
    | (inl _, _) => log = []
    | (inr _, e1) =>
        match get_slot_statuses (world e1) with
        | (inl _, _) => log = []
        | (inr all_slots, w2) =>
            act_log v all_slots w2 (time_time w2) (rng e1) log
        end
    end.

End Loop.

(** What a part of a cycle that starts with the variables [v] does: it
    extends the trace, sleeps with the backoff multiplier of [v] only,
    hands that multiplier on, and makes reservations that satisfy [log]. *)
Definition part {W} (v : vars) (log : list (string * string) -> Prop)
    (m : @M W control) (e : @env W) : Prop :=
  exists tr r e',
    m e = (r, e')
    /\ trace e' = trace e ++ tr
    /\ Forall (eq (backoff_multiplier v)) (multipliers tr)
    /\ (forall c, r = inr c ->
          backoff_multiplier (vars_of c) = backoff_multiplier v)
    /\ log (reservations tr).

End Main.

(** ** A scripted world

    An outside world that answers each kind of call from a list, in order;
    it is used to run the loop on concrete inputs. *)

Module Script.

Record world : Type := mk {
  commands : list (option string);
  pages : list (exn + list slot);
  answers : list (string * string);
  confirmations : list bool;
  dashboards : list (list booking);
  clock : Q
}.

Definition check_commands (w : world) : option string * world :=
  (hd None (commands w),
   mk (tl (commands w)) (pages w) (answers w) (confirmations w) (dashboards w)
      (clock w)).

Definition get_slot_statuses (w : world) : (exn + list slot) * world :=
  (hd (inr []) (pages w),
   mk (commands w) (tl (pages w)) (answers w) (confirmations w) (dashboards w)
      (clock w)).

Definition reserve_slot (element_id : string) (w : world)
    : (string * string) * world :=
  (hd ("error", "") (answers w),
   mk (commands w) (pages w) (tl (answers w)) (confirmations w) (dashboards w)
      (clock w)).

Definition confirm_booking (w : world) : bool * world :=
  (hd false (confirmations w),
   mk (commands w) (pages w) (answers w) (tl (confirmations w)) (dashboards w)
      (clock w)).

Definition get_all_manual_bookings (w : world) : list booking * world :=
  (hd [] (dashboards w),
   mk (commands w) (pages w) (answers w) (confirmations w) (tl (dashboards w))
      (clock w)).

Definition time_time (w : world) : Q := clock w.

Definition asyncio_sleep (seconds : Q) (w : world) : world :=
  mk (commands w) (pages w) (answers w) (confirmations w) (dashboards w)
     (clock w + seconds)%Q.

Definition open_practical_safe (w : world) : (exn + unit) * world := (inr tt, w).

Definition open_logout (w : world) : (exn + unit) * world := (inr tt, w).

Definition screenshot (w : world) : (exn + unit) * world := (inr tt, w).

(** A generator whose [n]-th raw draw is [n]. *)
Definition counting : Random.generator := Random.mkgen Z.of_nat 0.

Definition boot (w : world) : @Main.env world :=
  Main.mkenv w counting [].

#[global] Instance scripted : Outside world :=
  Build_Outside world check_commands screenshot get_slot_statuses reserve_slot
    confirm_booking get_all_manual_bookings time_time asyncio_sleep
    open_practical_safe open_logout.

Definition cycle (cfg : config) (v : Main.vars) : @Main.M world Main.control :=
  Main.cycle cfg v.

Definition while_true (cfg : config) (fuel : nat) (v : Main.vars)
    : @Main.M world Main.control :=
  Main.while_true cfg fuel v.

Definition main (cfg : config) (fuel : nat) : @Main.M world Main.control :=
  Main.main cfg fuel.

End Script.

(** ** Concrete slots and configurations used in the examples *)

Module Scenario.

Definition jan1 : Datetime.date := Datetime.mkdate 2025 1 1.

Definition wed (n : Z) : slot :=
  mkslot "01/Jan/2025" "Wednesday" n "available" ("btn_" +:+ Text.of_Z n).

Definition thu (n : Z) : slot :=
  mkslot "02/Jan/2025" "Thursday" n "available" ("btn_thu_" +:+ Text.of_Z n).

Definition garbled : slot :=
  mkslot "Loading..." "" 1 "available" "btn_x".

(** [allowed_sessions: {WED: [3]}], nothing else. *)
Definition base : config :=
  mkconfig None None None (Some {[ "WED" := [3] ]}) None None None.

Definition booked_at (n : Z) : list booking := [mkbooking jan1 n].

(** [base] with [one_slot_per_day: true]. *)
Definition one_a_day : config :=
  mkconfig (Some true) None None (Some {[ "WED" := [3] ]}) None None None.

(** 1 January 2025 is included for the sessions [l], and excluded; no
    weekday is allowed. *)
Definition included_and_excluded (l : list Z) : config :=
  mkconfig None (Some ["2025-01-01"]) None None
           (Some {[ "2025-01-01" := l ]}) None None.

(** 1 January 2025 is included for the sessions [l]; session 3 is allowed
    on Wednesdays and no date is excluded. *)
Definition included_only (l : list Z) : config :=
  mkconfig None None None (Some {[ "WED" := [3] ]})
           (Some {[ "2025-01-01" := l ]}) None None.

(** The sessions 1, 3 and 4 are allowed on Wednesdays. *)
Definition wednesdays : config :=
  mkconfig None None None (Some {[ "WED" := [1; 3; 4] ]}) None None None.

(** Scenario D: a page with three candidates; the portal answers the
    first reservation with "success" and the second with "no_change". *)
Definition stale_page : Script.world :=
  Script.mk [] [inr [wed 1; wed 3; wed 4]]
    [("success", ""); ("no_change", ""); ("success", "")] [] [] 0.

(** The portal fails on the second page, and would fail again. *)
Definition failing_portal : Script.world :=
  Script.mk []
    [inr []; inl (PortalError "timeout"); inl (PortalError "timeout");
     inl (PortalError "timeout")]
    [] [] [] 0.

Definition upgrade_notice (n b : Z) : message :=
  mkmessage (Filter.upgrade_message jan1 n b) true.

End Scenario.

(** * More of the code

    The rest of this part embeds code around the filter, the refresh mode
    and the loop: the rule chain of the filter read as a predicate, the
    loop over the rows of the dashboard in [get_all_manual_bookings], the
    scan of [TelegramBot.check_commands], and notions to speak about whole
    runs. *)

(** ** Printed dates

    What the numbers and the month names of a printed date have to be like
    for the date to be read back. *)

Module Printed.

Definition day_text_ok (n : Z) : Prop :=
  Text.split_on "/" (Text.padded 2 n) = [Text.padded 2 n]
  /\ Datetime.parse_day (Text.padded 2 n) = Some n
  /\ String.length (Text.padded 2 n) = 2%nat.

Definition month_text_ok (n : Z) : Prop :=
  Text.split_on "/" (Datetime.nth_name Datetime.month_abbr (n - 1))
    = [Datetime.nth_name Datetime.month_abbr (n - 1)]
  /\ Datetime.parse_month (Datetime.nth_name Datetime.month_abbr (n - 1)) = Some n.

Definition year_text_ok (n : Z) : Prop :=
  Text.split_on "/" (Text.padded 4 n) = [Text.padded 4 n]
  /\ Datetime.parse_year (Text.padded 4 n) = Some n
  /\ String.length (Text.padded 4 n) = 4%nat.

#[global] Instance day_text_ok_dec n : Decision (day_text_ok n).
Proof. unfold day_text_ok. apply _. Defined.

#[global] Instance month_text_ok_dec n : Decision (month_text_ok n).
Proof. unfold month_text_ok. apply _. Defined.

#[global] Instance year_text_ok_dec n : Decision (year_text_ok n).
Proof. unfold year_text_ok. apply _. Defined.

End Printed.

(** ** The rule chain of the filter, slot by slot *)

Module Rules.

(** Rules 2 to 5 for one slot, without the per-day check. *)
Definition passes (L : Filter.locals) (s : slot) : bool :=
  match Datetime.strptime (date s) with
  | None => false
  | Some d =>
      let date_str := Datetime.isoformat d in
      match Filter.booked_slots L !! date_str with
      | Some booked_session =>
          (session s <? booked_session)
          && bool_decide (session s ∈ Filter.non_peak_sessions L)
      | None =>
          match Filter.included_dates_sessions L !! date_str with
          | Some sessions => bool_decide (session s ∈ sessions)
          | None =>
              negb (bool_decide (date_str ∈ Filter.excluded_dates L))
              && bool_decide
                   (session s
                    ∈ default ∅ (Filter.allowed_sessions L
                                   !! Text.upper (Text.prefix 3 (dayname s))))
          end
      end
  end.

(** The first slot of each date, in the order of the list; [seen] holds
    the dates that are taken already. *)
Fixpoint first_per_date (seen : gset string) (l : list slot) : list slot :=
  match l with
  | [] => []
  | s :: rest =>
      match Filter.date_str_of s with
      | Some k =>
          if bool_decide (k ∈ seen) then first_per_date seen rest
          else s :: first_per_date (seen ∪ {[k]}) rest
      | None => first_per_date seen rest
      end
  end.

(** The slots that a call keeps. *)
Definition kept (L : Filter.locals) (slots : list slot) : list slot :=
  if Filter.one_slot_per_day L
  then first_per_date ∅ (base.filter (fun s => passes L s = true) slots)
  else base.filter (fun s => passes L s = true) slots.

(** The message that goes with a kept slot: one for a slot of a booked
    date, none for the others. *)
Definition notice (L : Filter.locals) (s : slot) : option message :=
  match Datetime.strptime (date s) with
  | None => None
  | Some d =>
      match Filter.booked_slots L !! Datetime.isoformat d with
      | Some booked_session =>
          Some (mkmessage (Filter.upgrade_message d (session s) booked_session)
                  true)
      | None => None
      end
  end.

(** [st] with the slots, dates and messages of [more] added. *)
Definition extend (st more : Filter.loop_state) : Filter.loop_state :=
  {| Filter.filtered := Filter.filtered st ++ Filter.filtered more;
     Filter.dates_with_a_found_slot :=
       Filter.dates_with_a_found_slot st ∪ Filter.dates_with_a_found_slot more;
     Filter.sent := Filter.sent st ++ Filter.sent more |}.

End Rules.

(** ** The rows of the dashboard

    Lines 81 to 99 of [get_all_manual_bookings]: the loop over the rows
    [[date, session, course]] that the page script returns.  Python's
    [int] is a parameter: [None] is its [ValueError]. *)

Module Dashboard.

Record row : Type := mkrow {
  r_date : string;
  r_session : string;
  r_course : string
}.

Section Rows.

Variable int : string -> option Z.

(** The [try] block of one row: the booking, or [None] for [ValueError]. *)
Definition parse_row (r : row) : option booking :=
  match Datetime.strptime (r_date r) with
  | None => None
  | Some date_obj =>
      match int (r_session r) with
      | None => None
      | Some session_no => Some (mkbooking date_obj session_no)
      end
  end.

(** [for row in raw_rows], with the list [bookings] built so far. *)
Fixpoint rows_loop (course_value : string) (bookings : list booking)
    (raw_rows : list row) : list booking :=
  match raw_rows with
  | [] => bookings
  | r :: rest =>
      if negb (String.eqb (r_course r) course_value)
      then rows_loop course_value bookings rest
      else
        match parse_row r with
        | Some b => rows_loop course_value (bookings ++ [b]) rest
        | None => rows_loop course_value bookings rest
        end
  end.

Definition bookings_of_rows (course_value : string) (raw_rows : list row)
    : list booking :=
  rows_loop course_value [] raw_rows.

(** A row that gives a booking. *)
Definition well_formed (course_value : string) (r : row) : Prop :=
  r_course r = course_value /\ is_Some (parse_row r).

End Rows.

(** A stand-in for [int] on strings of ASCII digits, for the examples. *)
Fixpoint digits (acc : Z) (s : string) : option Z :=
  match s with
  | EmptyString => Some acc
  | String c r =>
      if Text.is_digit c then digits (10 * acc + Text.digit_value c) r
      else None
  end.

Definition int_of_digits (s : string) : option Z :=
  match s with
  | EmptyString => None
  | _ => digits 0 s
  end.

End Dashboard.

(** ** The commands of the chat

    [TelegramBot.check_commands].  The answer of the server is its parsed
    JSON; texts are taken as ASCII, so that [strip] removes the ASCII white
    space and [lower] changes the letters A to Z. *)

Module Telegram.

(** An update: its id and, when it has the key ["message"], the id of the
    chat and the text, when the message has one. *)
Record update : Type := mkupdate {
  update_id : Z;
  message_of : option (Z * option string)
}.

(** What [requests.get(url).json()] gives: an exception, a dictionary
    without ["result"], or the updates. *)
Inductive response : Type :=
  | Failed
  | NoResult
  | Result (updates : list update).

Record bot : Type := mkbot {
  chat_id : string;
  last_checked_update_id : option Z
}.

Definition is_space (c : ascii) : bool :=
  let n := nat_of_ascii c in
  ((9 <=? n)%nat && (n <=? 13)%nat) || ((28 <=? n)%nat && (n <=? 32)%nat).

Fixpoint lstrip (s : string) : string :=
  match s with
  | EmptyString => EmptyString
  | String c r => if is_space c then lstrip r else s
  end.

(** [s] without its white space at the end: a character is dropped when
    it is white space and nothing is left after it. *)
Fixpoint rstrip (s : string) : string :=
  match s with
  | EmptyString => EmptyString
  | String c r =>
      match rstrip r with
      | EmptyString => if is_space c then EmptyString else String c EmptyString
      | r' => String c r'
      end
  end.

Definition strip (s : string) : string := rstrip (lstrip s).

Definition lower_ascii (c : ascii) : ascii :=
  let n := nat_of_ascii c in
  if (65 <=? n)%nat && (n <=? 90)%nat then ascii_of_nat (n + 32) else c.

Fixpoint lower (s : string) : string :=
  match s with
  | EmptyString => EmptyString
  | String c r => String (lower_ascii c) (lower r)
  end.

(** The [if]/[elif] chain on the text. *)
Definition command_of (text : string) : option string :=
  if String.eqb text "/stop" then Some "stop"
  else if String.eqb text "/status" then Some "status"
  else if String.eqb text "/screen" then Some "screen"
  else if String.eqb text "/stats" then Some "stats"
  else None.

(** The offset of the request. *)
Definition offset (self : bot) : Z :=
  match last_checked_update_id self with
  | Some i => i + 1
  | None => 0
  end.

(** [for update in resp["result"]]: what is returned, and the last id
    that was stored.  A missing key raises [KeyError], which the handler
    of [check_commands] turns into [None]. *)
Fixpoint scan (own : string) (last : option Z) (updates : list update)
    : option string * option Z :=
  match updates with
  | [] => (None, last)
  | u :: rest =>
      let last := Some (update_id u) in
      match message_of u with
      | None => (None, last)
      | Some (chat, text) =>
          if negb (String.eqb (Text.of_Z chat) own) then scan own last rest
          else
            match text with
            | None => (None, last)
            | Some t =>
                match command_of (lower (strip t)) with
                | Some c => (Some c, last)
                | None => scan own last rest
                end
            end
      end
  end.

Definition check_commands (self : bot) (resp : response) : option string * bot :=
  match resp with
  | Failed | NoResult => (None, self)
  | Result updates =>
      let '(cmd, last) := scan (chat_id self) (last_checked_update_id self) updates in
      (cmd, mkbot (chat_id self) last)
  end.

(** An update that the scan passes over: one of another chat, or one of
    the own chat whose text is no command. *)
Definition passed_over (own : string) (u : update) : Prop :=
  exists chat text,
    message_of u = Some (chat, text)
    /\ (Text.of_Z chat <> own
        \/ exists t, text = Some t /\ command_of (lower (strip t)) = None).

(** An update of the own chat with the command [c]. *)
Definition orders (own : string) (u : update) (c : string) : Prop :=
  exists chat t,
    message_of u = Some (chat, Some t)
    /\ Text.of_Z chat = own
    /\ command_of (lower (strip t)) = Some c.

End Telegram.

(** ** Runs of the scheduler and of the loop *)

(** [tick], once for each reading of the clock in [nows]. *)
Fixpoint ticks (self : RefreshMode.t) (nows : list Q) : RefreshMode.t :=
  match nows with
  | [] => self
  | now :: rest => ticks (RefreshMode.tick self now) rest
  end.

(** The answers of [confirm_booking] in a trace. *)
Fixpoint confirmations (tr : list event) : list bool :=
  match tr with
  | [] => []
  | Confirm ok :: rest => ok :: confirmations rest
  | _ :: rest => confirmations rest
  end.

(** An event that is neither a reservation nor a confirmation. *)
Definition harmless (ev : event) : Prop :=
  match ev with
  | Reserve _ _ | Confirm _ => False
  | _ => True
  end.

(** An event that is no confirmation. *)
Definition unconfirming (ev : event) : Prop :=
  match ev with
  | Confirm _ => False
  | _ => True
  end.

(** A random sleep of the aggressive cadence, or another event. *)
Definition aggressive_sleep (ev : event) : Prop :=
  match ev with
  | SleptRandom delay _ => (2 <= delay)%Q /\ (delay <= 4)%Q
  | _ => True
  end.

(** A random sleep of the aggressive or of the probe cadence, or another
    event. *)
Definition short_sleep (ev : event) : Prop :=
  match ev with
  | SleptRandom delay _ => (2 <= delay)%Q /\ (delay <= 9)%Q
  | _ => True
  end.

(** The computation [m] returns or raises from every environment; it adds
    to the trace only events that satisfy [P]; and what it returns
    satisfies [Q]. *)
Definition yields {W A : Type} (P : event -> Prop) (Q : A -> Prop)
    (m : @Main.M W A) : Prop :=
  forall e, exists tr r e',
    m e = (r, e')
    /\ Main.trace e' = Main.trace e ++ tr
    /\ Forall P tr
    /\ (forall a, r = inr a -> Q a).

(** The message of a dry run for a slot (line 243). *)
Definition dry_run_message (s : slot) : message :=
  mkmessage ("Dry run enabled. Would book " +:+ date s +:+ " session "
             +:+ Text.of_Z (session s) +:+ " (" +:+ dayname s +:+ ")") true.

(** The candidates that the portal answers with "success": [answers] holds
    the answers to the reservations, in order. *)
Fixpoint reserved (candidates : list slot) (answers : list (string * string))
    : list slot :=
  match candidates, answers with
  | s :: rest, (_, a) :: more =>
      if String.eqb a "success" then s :: reserved rest more
      else reserved rest more
  | _, _ => []
  end.

(** * Properties of the slot filter *)

Module FilterFacts.

Import Filter.

Lemma loop_app L st pre post :
  loop L st (pre ++ post) =
    match loop L st pre with
    | (None, st') => loop L st' post
    | (Some e, st') => (Some e, st')
    end.
Proof.
  revert st. induction pre as [|s pre IH]; intros st; simpl; [done|].
  destruct (body L st s) as [e|st']; [done|]. apply IH.
Qed.

(** A call that returns has run its loop to the end. *)
Lemma returned slots cfg bk f m :
  filter_practical_slots slots cfg bk = (inr f, m) ->
  exists st, loop (extract cfg bk) initial slots = (None, st)
             /\ filtered st = f /\ sent st = m.
Proof.
  unfold filter_practical_slots.
  destruct (loop (extract cfg bk) initial slots) as [[e|] st]; intros H.
  - discriminate.
  - exists st. by inversion H.
Qed.

(** The call on a list with one more slot, from the loop on the list. *)
Lemma snoc slots s cfg bk st :
  loop (extract cfg bk) initial slots = (None, st) ->
  filter_practical_slots (slots ++ [s]) cfg bk =
    match body (extract cfg bk) st s with
    | inl e => (inl e, sent st)
    | inr st' => (inr (filtered st'), sent st')
    end.
Proof.
  intros H. unfold filter_practical_slots. rewrite loop_app, H. simpl.
  by destruct (body (extract cfg bk) st s).
Qed.

Lemma body_verdict L st s st' : body L st s = inr st' -> verdict st s st'.
Proof.
  unfold body. destruct (Datetime.strptime (date s)) as [d|] eqn:Hd; [|done].
  intros H.
  repeat match type of H with
         | (if ?c then _ else _) = _ => destruct c
         | match ?o with Some _ => _ | None => _ end = _ => destruct o
         end;
    inversion H; subst;
    first [apply skipped | by apply matched | by apply upgraded].
Qed.

Lemma dates_agree_initial : dates_agree initial.
Proof.
  intros k. unfold date_taken. simpl. rewrite Exists_nil. set_solver.
Qed.

Lemma date_taken_snoc l s k :
  date_taken (l ++ [s]) k <-> date_taken l k \/ date_str_of s = Some k.
Proof.
  unfold date_taken. rewrite Exists_app, Exists_cons, Exists_nil. tauto.
Qed.

Lemma dates_agree_verdict st s st' :
  verdict st s st' -> dates_agree st -> dates_agree st'.
Proof.
  intros Hv Hst k. destruct Hv as [|d Hd|d msg Hd]; [by apply Hst| |];
    simpl; rewrite date_taken_snoc, elem_of_union, elem_of_singleton;
    unfold date_str_of; rewrite Hd; simpl; rewrite (Hst k); simpl;
    split; intros [?|?]; auto; right; congruence.
Qed.

Lemma loop_invariant (P : loop_state -> Prop) L :
  (forall st s st', body L st s = inr st' -> P st -> P st') ->
  forall slots st r st', loop L st slots = (r, st') -> P st -> P st'.
Proof.
  intros Hstep. induction slots as [|s slots IH]; simpl; intros st r st' H HP.
  - by inversion H; subst.
  - destruct (body L st s) as [e|st1] eqn:Hb.
    + by inversion H; subst.
    + eapply IH; eauto.
Qed.

Lemma dates_agree_loop L slots r st :
  loop L initial slots = (r, st) -> dates_agree st.
Proof.
  intros H.
  eapply (loop_invariant dates_agree L); [|exact H|exact dates_agree_initial].
  intros st0 s st1 Hb. apply (dates_agree_verdict st0 s). by eapply body_verdict.
Qed.

(** The iteration for a slot that passes the per-day check. *)
Lemma body_uncapped L st s d :
  Datetime.strptime (date s) = Some d ->
  one_slot_per_day L && bool_decide (Datetime.isoformat d ∈ dates_with_a_found_slot st)
    = false ->
  body L st s =
    match booked_slots L !! Datetime.isoformat d with
    | Some b =>
        if (session s <? b) && bool_decide (session s ∈ non_peak_sessions L)
        then inr (keep (notify st (upgrade_message d (session s) b)) s
                    (Datetime.isoformat d))
        else inr st
    | None =>
        match included_dates_sessions L !! Datetime.isoformat d with
        | Some sessions =>
            if bool_decide (session s ∈ sessions)
            then inr (keep st s (Datetime.isoformat d)) else inr st
        | None =>
            if bool_decide (Datetime.isoformat d ∈ excluded_dates L) then inr st
            else
              let a := default ∅
                (allowed_sessions L !! Text.upper (Text.prefix 3 (dayname s))) in
              if bool_decide (a = ∅) || negb (bool_decide (session s ∈ a))
              then inr st else inr (keep st s (Datetime.isoformat d))
        end
    end.
Proof. intros Hd Hc. unfold body. rewrite Hd. simpl. by rewrite Hc. Qed.

Lemma body_capped L st s d :
  Datetime.strptime (date s) = Some d ->
  one_slot_per_day L && bool_decide (Datetime.isoformat d ∈ dates_with_a_found_slot st)
    = true ->
  body L st s = inr st.
Proof. intros Hd Hc. unfold body. rewrite Hd. simpl. by rewrite Hc. Qed.

(** The per-day check, read on the list of the slots kept so far. *)
Lemma cap_spec L st d :
  dates_agree st ->
  one_slot_per_day L && bool_decide (Datetime.isoformat d ∈ dates_with_a_found_slot st)
    = true
  <-> one_slot_per_day L = true /\ date_taken (filtered st) (Datetime.isoformat d).
Proof.
  intros Hst. rewrite andb_true_iff, bool_decide_eq_true. by rewrite (Hst _).
Qed.

(** An iteration either leaves the state alone or keeps the slot, and it
    keeps the slot only past the per-day check. *)
Lemma body_kept L st s st' :
  body L st s = inr st' ->
  st' = st
  \/ exists d, Datetime.strptime (date s) = Some d
               /\ one_slot_per_day L
                  && bool_decide (Datetime.isoformat d ∈ dates_with_a_found_slot st)
                  = false
               /\ filtered st' = filtered st ++ [s].
Proof.
  intros H. destruct (Datetime.strptime (date s)) as [d|] eqn:Hd.
  - destruct (one_slot_per_day L
              && bool_decide (Datetime.isoformat d ∈ dates_with_a_found_slot st))
      eqn:Hc.
    + rewrite (body_capped L st s d Hd Hc) in H. left. congruence.
    + destruct (body_verdict L st s st' H) as [|d' Hd'|d' msg Hd'].
      * by left.
      * right. by exists d.
      * right. by exists d.
  - unfold body in H. by rewrite Hd in H.
Qed.

Lemma on_date_none l k : ~ date_taken l k -> on_date k l = [].
Proof.
  unfold date_taken, on_date. induction l as [|s l IH]; [done|].
  rewrite Exists_cons. intros Hn. rewrite filter_cons.
  destruct (decide (date_str_of s = Some k)); [tauto|]. apply IH. tauto.
Qed.

Lemma one_per_date_body L st s st' :
  one_slot_per_day L = true ->
  body L st s = inr st' -> one_per_date st -> one_per_date st'.
Proof.
  intros Hone Hb (Hagree & Hcount).
  split.
  { eapply dates_agree_verdict; [by eapply body_verdict|done]. }
  destruct (body_kept L st s st' Hb) as [->|(d & Hd & Hc & ->)]; [done|].
  rewrite Hone in Hc. simpl in Hc. apply bool_decide_eq_false in Hc.
  intros k. unfold on_date. rewrite filter_app, length_app, filter_cons, filter_nil.
  fold (on_date k (filtered st)).
  destruct (decide (date_str_of s = Some k)) as [Hk|Hk]; simpl.
  - rewrite on_date_none; [simpl; lia|].
    intros Ht. apply Hagree in Ht. unfold date_str_of in Hk. rewrite Hd in Hk.
    simpl in Hk. congruence.
  - specialize (Hcount k). lia.
Qed.

(** The slots kept are slots of the input, in its order. *)
Lemma loop_sublist L slots st r st' :
  loop L st slots = (r, st') ->
  exists kept, filtered st' = filtered st ++ kept /\ sublist kept slots.
Proof.
  revert st. induction slots as [|s slots IH]; simpl; intros st H.
  - inversion H; subst. exists []. by rewrite app_nil_r.
  - destruct (body L st s) as [e|st1] eqn:Hb.
    + inversion H; subst. exists []. rewrite app_nil_r. split; [done|].
      apply sublist_nil_l.
    + destruct (IH _ H) as (kept & Hk & Hsub).
      destruct (body_kept L st s st1 Hb) as [->|(d & _ & _ & Hf)].
      * exists kept. split; [done|]. by apply sublist_cons.
      * exists (s :: kept). rewrite Hk, Hf, <- app_assoc. split; [done|].
        by apply sublist_skip.
Qed.

(** The loop runs to its end when every date parses, and only then. *)
Lemma loop_total L slots st :
  Forall (fun s => is_Some (Datetime.strptime (date s))) slots ->
  exists st', loop L st slots = (None, st').
Proof.
  intros Hall. revert st. induction Hall as [|s slots [d Hd] _ IH]; intros st.
  - by exists st.
  - simpl. destruct (body L st s) as [e|st1] eqn:Hb; [|apply IH].
    unfold body in Hb. rewrite Hd in Hb. simpl in Hb.
    repeat match type of Hb with
           | (if ?c then _ else _) = _ => destruct c
           | match ?o with Some _ => _ | None => _ end = _ => destruct o
           end; discriminate.
Qed.

Lemma loop_raises L slots st :
  Exists (fun s => Datetime.strptime (date s) = None) slots ->
  exists e st', loop L st slots = (Some e, st').
Proof.
  intros Hex. revert st. induction Hex as [s slots Hd|s slots _ IH]; intros st; simpl.
  - unfold body. rewrite Hd. eauto.
  - destruct (body L st s) as [e|st1]; eauto.
Qed.

Lemma filter_length_le {A} (P Q : A -> Prop) `{!forall x, Decision (P x)}
    `{!forall x, Decision (Q x)} (l : list A) :
  Forall (fun x => P x -> Q x) l ->
  (length (base.filter P l) <= length (base.filter Q l))%nat.
Proof.
  induction 1 as [|x l Hx _ IH]; [done|]. rewrite !filter_cons.
  destruct (decide (P x)), (decide (Q x)); simpl; try lia. tauto.
Qed.

Lemma spelled_le_on_date l raw d :
  Datetime.strptime raw = Some d ->
  (length (spelled raw l) <= length (on_date (Datetime.isoformat d) l))%nat.
Proof.
  intros Hd. apply filter_length_le, Forall_forall. intros s _ <-.
  unfold date_str_of. by rewrite Hd.
Qed.

Lemma spelled_unparsed l raw :
  Forall (fun s => is_Some (Datetime.strptime (date s))) l ->
  Datetime.strptime raw = None -> spelled raw l = [].
Proof.
  intros Hall Hraw. unfold spelled.
  induction Hall as [|s l [d Hd] _ IH]; [done|]. rewrite filter_cons.
  destruct (decide (date s = raw)) as [<-|]; [congruence|done].
Qed.

(** [booked_slots] holds, for a date, the session of its last booking in
    the list. *)
Lemma booked_slots_of_snoc bk b :
  booked_slots_of (bk ++ [b])
  = <[Datetime.isoformat (booking_date b) := booking_session b]> (booked_slots_of bk).
Proof. unfold booked_slots_of. by rewrite foldl_app. Qed.

Lemma booked_slots_of_lookup bk k n :
  booked_slots_of bk !! k = Some n ->
  exists b, b ∈ bk /\ Datetime.isoformat (booking_date b) = k
            /\ booking_session b = n.
Proof.
  induction bk as [|b bk IH] using rev_ind; [done|].
  rewrite booked_slots_of_snoc.
  destruct (decide (Datetime.isoformat (booking_date b) = k)) as [<-|Hne].
  - rewrite lookup_insert_eq. intros [= <-]. exists b.
    rewrite elem_of_app, list_elem_of_singleton. auto.
  - rewrite lookup_insert_ne by done. intros Hk.
    destruct (IH Hk) as (b' & Hin & Hdate & Hsession). exists b'.
    rewrite elem_of_app. auto.
Qed.

Lemma booked_slots_of_booked bk b :
  b ∈ bk -> is_Some (booked_slots_of bk !! Datetime.isoformat (booking_date b)).
Proof.
  induction bk as [|b' bk IH] using rev_ind; [by intros ?%elem_of_nil|].
  rewrite booked_slots_of_snoc, elem_of_app, list_elem_of_singleton.
  destruct (decide (Datetime.isoformat (booking_date b')
                    = Datetime.isoformat (booking_date b))) as [Heq|Hne].
  - rewrite Heq, lookup_insert_eq. eauto.
  - rewrite lookup_insert_ne by done. intros [Hb| ->]; [by apply IH|done].
Qed.

Lemma upgrade_spec L s b :
  (session s <? b) && bool_decide (session s ∈ non_peak_sessions L) = true
  <-> session s < b /\ session s ∈ non_peak_sessions L.
Proof. by rewrite andb_true_iff, Z.ltb_lt, bool_decide_eq_true. Qed.

End FilterFacts.

(** A decidable fact about concrete data, settled by evaluation. *)
Ltac decide_by_computation :=
  apply (bool_decide_unpack _); vm_compute; exact I.

(** ** Rule 2: a date that is already booked *)

(** C1, amended.  Let the filter have returned on the slots before [s], and
    let the date of [s] be booked at session [b].  Then [s] is accepted if and
    only if its session is below [b] and a non-peak session, and the per-day
    check has not already closed the date (one_slot_per_day is off, or no
    slot of this date was accepted before).  On acceptance the slot is
    appended and exactly one message, which names both sessions, is sent;
    otherwise nothing changes.  The iteration does not depend on the
    included dates, the excluded dates or the allowed sessions. *)
Theorem existing_booking_rule cfg bk pre s f0 m0 d b :
  let L := Filter.extract cfg bk in
  Filter.filter_practical_slots pre cfg bk = (inr f0, m0) ->
  Datetime.strptime (date s) = Some d ->
  Filter.booked_slots L !! Datetime.isoformat d = Some b ->
  let upgrade := session s < b /\ session s ∈ Filter.non_peak_sessions L in
  let capped := Filter.one_slot_per_day L = true
                /\ Filter.date_taken f0 (Datetime.isoformat d) in
  (upgrade /\ ~ capped ->
     Filter.filter_practical_slots (pre ++ [s]) cfg bk =
       (inr (f0 ++ [s]),
        m0 ++ [mkmessage (Filter.upgrade_message d (session s) b) true]))
  /\ (~ (upgrade /\ ~ capped) ->
     Filter.filter_practical_slots (pre ++ [s]) cfg bk = (inr f0, m0))
  /\ (forall st included excluded allowed,
     Filter.body (Filter.with_rules L included excluded allowed) st s
       = Filter.body L st s).
Proof.
  intros L Hpre Hd Hb upgrade capped.
  destruct (FilterFacts.returned _ _ _ _ _ Hpre) as (st & Hloop & <- & <-).
  pose proof (FilterFacts.dates_agree_loop _ _ _ _ Hloop) as Hagree.
  pose proof (FilterFacts.cap_spec L st d Hagree) as Hcap.
  pose proof (FilterFacts.upgrade_spec L s b) as Hup.
  rewrite !(FilterFacts.snoc _ _ _ _ _ Hloop). fold L.
  split; [|split].
  - intros [Hu Hnc].
    rewrite (FilterFacts.body_uncapped L st s d Hd), Hb.
    + by rewrite (proj2 Hup Hu).
    + apply not_true_is_false. intros Hc. apply Hnc. by apply Hcap.
  - intros Hno.
    destruct (Filter.one_slot_per_day L
              && bool_decide (Datetime.isoformat d ∈ Filter.dates_with_a_found_slot st))
      eqn:Hc.
    + by rewrite (FilterFacts.body_capped L st s d Hd Hc).
    + rewrite (FilterFacts.body_uncapped L st s d Hd Hc), Hb.
      destruct ((session s <? b) && bool_decide (session s ∈ Filter.non_peak_sessions L))
        eqn:Hu; [|done].
      exfalso. apply Hno. split; [by apply Hup|].
      intros Hcapped. apply Hcap in Hcapped. congruence.
  - intros st0 included excluded allowed.
    unfold Filter.body, Filter.with_rules. rewrite Hd.
    cbn [Filter.one_slot_per_day Filter.booked_slots Filter.non_peak_sessions].
    by rewrite Hb.
Qed.

(** Scenario C: a booking at session 5 and a candidate at session 3. *)
Lemma existing_booking_rule_witness :
  Filter.filter_practical_slots [Scenario.wed 3] Scenario.base (Scenario.booked_at 5)
  = (inr [Scenario.wed 3], [Scenario.upgrade_notice 3 5]).
Proof.
  refine (proj1 (existing_booking_rule Scenario.base (Scenario.booked_at 5) []
                   (Scenario.wed 3) [] [] Scenario.jan1 5 _ _ _) _).
  - vm_compute. reflexivity.
  - vm_compute. reflexivity.
  - vm_compute. reflexivity.
  - split.
    + split; [reflexivity|]. decide_by_computation.
    + intros [H _]. vm_compute in H. discriminate H.
Defined.

(** C1 as stated fails: with one_slot_per_day, a booking at session 5 and
    the sessions 1 and 3 of the booked date on offer, session 3 is below 5
    and non-peak, but the filter does not accept it and sends nothing for
    it, because session 1 was accepted first. *)
Lemma upgrade_blocked_by_cap :
  Datetime.strptime (date (Scenario.wed 3)) = Some Scenario.jan1
  /\ Filter.booked_slots (Filter.extract Scenario.one_a_day (Scenario.booked_at 5))
       !! Datetime.isoformat Scenario.jan1 = Some 5
  /\ session (Scenario.wed 3) < 5
  /\ session (Scenario.wed 3)
       ∈ Filter.non_peak_sessions (Filter.extract Scenario.one_a_day (Scenario.booked_at 5))
  /\ Filter.filter_practical_slots [Scenario.wed 1] Scenario.one_a_day
       (Scenario.booked_at 5)
     = (inr [Scenario.wed 1], [Scenario.upgrade_notice 1 5])
  /\ Filter.filter_practical_slots [Scenario.wed 1; Scenario.wed 3] Scenario.one_a_day
       (Scenario.booked_at 5)
     = (inr [Scenario.wed 1], [Scenario.upgrade_notice 1 5]).
Proof.
  repeat split; vm_compute; reflexivity.
Qed.

(** ** Rule 3: included dates *)

(** C2, amended.  Let the filter have returned on the slots before [s].  If
    the date of [s] has no existing booking, the per-day check has not closed
    it, and the included dates list the session of [s] for this date, then
    [s] is accepted and no message is sent, whatever the excluded dates and
    the allowed sessions are. *)
Theorem included_date_rule cfg bk pre s f0 m0 d sessions :
  let L := Filter.extract cfg bk in
  Filter.filter_practical_slots pre cfg bk = (inr f0, m0) ->
  Datetime.strptime (date s) = Some d ->
  Filter.included_dates_sessions L !! Datetime.isoformat d = Some sessions ->
  session s ∈ sessions ->
  Filter.booked_slots L !! Datetime.isoformat d = None ->
  ~ (Filter.one_slot_per_day L = true
     /\ Filter.date_taken f0 (Datetime.isoformat d)) ->
  Filter.filter_practical_slots (pre ++ [s]) cfg bk = (inr (f0 ++ [s]), m0).
Proof.
  intros L Hpre Hd Hi Hs Hb Hnc.
  destruct (FilterFacts.returned _ _ _ _ _ Hpre) as (st & Hloop & <- & <-).
  pose proof (FilterFacts.dates_agree_loop _ _ _ _ Hloop) as Hagree.
  rewrite (FilterFacts.snoc _ _ _ _ _ Hloop). fold L.
  rewrite (FilterFacts.body_uncapped L st s d Hd), Hb, Hi.
  - by rewrite (bool_decide_eq_true_2 _ Hs).
  - apply not_true_is_false. intros Hc. apply Hnc.
    by apply (FilterFacts.cap_spec L st d Hagree).
Qed.

(** The date is included for session 3, it is also excluded, and no weekday
    is allowed. *)
Lemma included_date_rule_witness :
  Filter.filter_practical_slots [Scenario.wed 3]
    (Scenario.included_and_excluded [3]) []
  = (inr [Scenario.wed 3], []).
Proof.
  refine (included_date_rule (Scenario.included_and_excluded [3]) []
            [] (Scenario.wed 3) [] [] Scenario.jan1 {[3]} _ _ _ _ _ _).
  - vm_compute. reflexivity.
  - vm_compute. reflexivity.
  - vm_compute. reflexivity.
  - decide_by_computation.
  - vm_compute. reflexivity.
  - intros [H _]. vm_compute in H. discriminate H.
Defined.

(** C2 as stated fails: the date is included for session 3, but it is
    booked at session 2, so rule 2 rejects the candidate at session 3 before
    the included dates are looked at. *)
Lemma included_but_booked :
  Datetime.strptime (date (Scenario.wed 3)) = Some Scenario.jan1
  /\ Filter.included_dates_sessions
       (Filter.extract (Scenario.included_and_excluded [3]) (Scenario.booked_at 2))
       !! Datetime.isoformat Scenario.jan1 = Some {[3]}
  /\ Filter.filter_practical_slots [Scenario.wed 3]
       (Scenario.included_and_excluded [3]) (Scenario.booked_at 2)
     = (inr [], []).
Proof.
  repeat split; vm_compute; reflexivity.
Qed.

(** C10, amended.  Let the filter have returned on the slots before [s].  If
    the included dates have an entry for the date of [s] that does not list
    the session of [s], then [s] is rejected and nothing is sent, whatever
    the excluded dates and the allowed sessions are, unless rule 2 accepts
    [s] as an upgrade of an existing booking of that date. *)
Theorem included_date_excludes_other_sessions cfg bk pre s f0 m0 d sessions :
  let L := Filter.extract cfg bk in
  Filter.filter_practical_slots pre cfg bk = (inr f0, m0) ->
  Datetime.strptime (date s) = Some d ->
  Filter.included_dates_sessions L !! Datetime.isoformat d = Some sessions ->
  session s ∉ sessions ->
  (forall b, Filter.booked_slots L !! Datetime.isoformat d = Some b ->
             ~ (session s < b /\ session s ∈ Filter.non_peak_sessions L)) ->
  Filter.filter_practical_slots (pre ++ [s]) cfg bk = (inr f0, m0).
Proof.
  intros L Hpre Hd Hi Hs Hb.
  destruct (FilterFacts.returned _ _ _ _ _ Hpre) as (st & Hloop & <- & <-).
  rewrite (FilterFacts.snoc _ _ _ _ _ Hloop). fold L.
  destruct (Filter.one_slot_per_day L
            && bool_decide (Datetime.isoformat d ∈ Filter.dates_with_a_found_slot st))
    eqn:Hc.
  - by rewrite (FilterFacts.body_capped L st s d Hd Hc).
  - rewrite (FilterFacts.body_uncapped L st s d Hd Hc), Hi.
    destruct (Filter.booked_slots L !! Datetime.isoformat d) as [b|] eqn:Hbk.
    + destruct ((session s <? b) && bool_decide (session s ∈ Filter.non_peak_sessions L))
        eqn:Hu; [|done].
      exfalso. apply (Hb b eq_refl). by apply FilterFacts.upgrade_spec.
    + by rewrite (bool_decide_eq_false_2 _ Hs).
Qed.

(** Session 3 is allowed on Wednesdays and the date is not excluded, but
    the date is included for session 1 only. *)
Lemma included_date_excludes_other_sessions_witness :
  Filter.filter_practical_slots [Scenario.wed 3] (Scenario.included_only [1]) []
  = (inr [], []).
Proof.
  refine (included_date_excludes_other_sessions (Scenario.included_only [1]) []
            [] (Scenario.wed 3) [] [] Scenario.jan1 {[1]} _ _ _ _ _).
  - vm_compute. reflexivity.
  - vm_compute. reflexivity.
  - vm_compute. reflexivity.
  - apply (bool_decide_unpack _). vm_compute. exact I.
  - intros b H. vm_compute in H. discriminate H.
Defined.

(** C10 as stated fails: the date is included for session 1 only, but it is
    booked at session 5, and rule 2 accepts the candidate at session 3 as an
    upgrade. *)
Lemma unlisted_session_accepted_as_upgrade :
  Datetime.strptime (date (Scenario.wed 3)) = Some Scenario.jan1
  /\ Filter.included_dates_sessions
       (Filter.extract (Scenario.included_only [1]) (Scenario.booked_at 5))
       !! Datetime.isoformat Scenario.jan1 = Some {[1]}
  /\ (session (Scenario.wed 3) ∉ ({[1]} : gset Z))
  /\ Filter.filter_practical_slots [Scenario.wed 3]
       (Scenario.included_only [1]) (Scenario.booked_at 5)
     = (inr [Scenario.wed 3], [Scenario.upgrade_notice 3 5]).
Proof.
  split; [vm_compute; reflexivity|].
  split; [vm_compute; reflexivity|].
  split; [apply (bool_decide_unpack _); vm_compute; exact I|].
  vm_compute. reflexivity.
Qed.

(** ** Rule 1: one slot per day *)

(** C3.  With one_slot_per_day on, a call on slots whose dates all parse
    returns a list that is a sublist of the input, in input order, and holds
    at most one slot of each date, whether dates are compared as parsed or
    as spelled; and a candidate whose date already has a slot in the result
    so far, ordinary match or upgrade, is rejected. *)
Theorem one_slot_per_day_cap cfg bk slots :
  Filter.one_slot_per_day (Filter.extract cfg bk) = true ->
  Forall (fun s => is_Some (Datetime.strptime (date s))) slots ->
  exists f m,
    Filter.filter_practical_slots slots cfg bk = (inr f, m)
    /\ sublist f slots
    /\ (forall k, (length (Filter.on_date k f) <= 1)%nat)
    /\ (forall raw, (length (Filter.spelled raw f) <= 1)%nat)
    /\ (forall pre s post f0 m0 k,
          slots = pre ++ s :: post ->
          Filter.filter_practical_slots pre cfg bk = (inr f0, m0) ->
          Filter.date_str_of s = Some k ->
          Filter.date_taken f0 k ->
          Filter.filter_practical_slots (pre ++ [s]) cfg bk = (inr f0, m0)).
Proof.
  intros Hone Hall.
  destruct (FilterFacts.loop_total (Filter.extract cfg bk) slots Filter.initial Hall)
    as [st Hloop].
  exists (Filter.filtered st), (Filter.sent st).
  assert (Hinv : Filter.one_per_date st).
  { eapply (FilterFacts.loop_invariant Filter.one_per_date); [|exact Hloop|].
    - intros st0 s st1. by apply FilterFacts.one_per_date_body.
    - split; [apply FilterFacts.dates_agree_initial|]. intros k. simpl. lia. }
  destruct (FilterFacts.loop_sublist _ _ _ _ _ Hloop) as (kept & Hk & Hsub).
  simpl in Hk. subst kept.
  assert (Hparsed : Forall (fun s => is_Some (Datetime.strptime (date s)))
                      (Filter.filtered st)).
  { rewrite Forall_forall in Hall |- *. intros s Hs. apply Hall.
    by eapply elem_of_sublist. }
  split; [|split; [done|split; [apply Hinv|split]]].
  - unfold Filter.filter_practical_slots. by rewrite Hloop.
  - intros raw. destruct (Datetime.strptime raw) as [d|] eqn:Hraw.
    + etrans; [by apply FilterFacts.spelled_le_on_date|apply Hinv].
    + rewrite FilterFacts.spelled_unparsed; [simpl; lia|done..].
  - intros pre s post f0 m0 k _ Hpre Hk Ht.
    destruct (FilterFacts.returned _ _ _ _ _ Hpre) as (st0 & Hloop0 & <- & <-).
    pose proof (FilterFacts.dates_agree_loop _ _ _ _ Hloop0) as Hagree.
    rewrite (FilterFacts.snoc _ _ _ _ _ Hloop0).
    unfold Filter.date_str_of in Hk.
    destruct (Datetime.strptime (date s)) as [d|] eqn:Hd; [|done].
    simpl in Hk. injection Hk as <-.
    rewrite (FilterFacts.body_capped _ st0 s d Hd); [done|].
    by apply FilterFacts.cap_spec.
Qed.

(** Two sessions of one date and one of the next: one slot per date is
    kept. *)
Lemma one_slot_per_day_cap_witness :
  exists f m,
    Filter.filter_practical_slots [Scenario.wed 3; Scenario.wed 3; Scenario.thu 3]
      Scenario.one_a_day [] = (inr f, m)
    /\ forall k, (length (Filter.on_date k f) <= 1)%nat.
Proof.
  destruct (one_slot_per_day_cap Scenario.one_a_day []
              [Scenario.wed 3; Scenario.wed 3; Scenario.thu 3])
    as (f & m & Hf & _ & Hk & _).
  - vm_compute. reflexivity.
  - repeat constructor; vm_compute; eauto.
  - exists f, m. split; [exact Hf|exact Hk].
Defined.

(** ** Slots whose date does not parse *)

(** C4, the behaviour of the code: a slot whose date does not match the
    format makes the whole call raise [ValueError], although the same batch
    without that slot returns a match. *)
Theorem garbled_slot_raises :
  Filter.filter_practical_slots [Scenario.garbled; Scenario.wed 3] Scenario.base []
  = (inl (ValueError "time data does not match format"), [])
  /\ Filter.filter_practical_slots [Scenario.wed 3] Scenario.base []
     = (inr [Scenario.wed 3], []).
Proof. split; vm_compute; reflexivity. Qed.

(** The same for every batch: one date that does not parse and the call
    raises, and nothing is returned. *)
Lemma unparsed_date_raises cfg bk slots :
  Exists (fun s => Datetime.strptime (date s) = None) slots ->
  exists e m, Filter.filter_practical_slots slots cfg bk = (inl e, m).
Proof.
  intros Hex.
  destruct (FilterFacts.loop_raises (Filter.extract cfg bk) slots Filter.initial Hex)
    as (e & st & Hloop).
  exists e, (Filter.sent st). unfold Filter.filter_practical_slots. by rewrite Hloop.
Qed.

(** * Properties of the refresh mode *)

Module RefreshModeFacts.

Import RefreshMode.

Lemma randint_in_range a b g :
  a <= b ->
  exists n, Random.randint a b g = inr (n, Random.advance g) /\ a <= n <= b.
Proof.
  intros Hab. unfold Random.randint.
  destruct (b - a + 1 <=? 0) eqn:Hw; [lia|].
  eexists. split; [reflexivity|].
  pose proof (Z.mod_pos_bound (Random.raw g) (b - a + 1)). lia.
Qed.

Lemma advance_neq g : Random.advance g <> g.
Proof.
  destruct g as [f n]. unfold Random.advance. simpl. intros H.
  injection H as H. lia.
Qed.

(** What [on_slot_detected] does when it returns, case by case. *)
Lemma on_slot_detected_cases self sf ff now g r self' g' :
  on_slot_detected self sf ff now g = inr (r, self', g') ->
  (ff = true /\ r = "aggressive"
   /\ exists self1, trigger_aggressive_mode self g = inr (self1, g')
                    /\ self' = set_probe self1 false None)
  \/ (ff = false /\ sf = true /\ in_aggressive self = false
      /\ probe_mode self = false /\ r = "probe"
      /\ self' = set_probe self true (Some now) /\ g' = g)
  \/ (ff = false /\ r = "none" /\ self' = self /\ g' = g).
Proof.
  unfold on_slot_detected. destruct ff.
  - destruct (trigger_aggressive_mode self g) as [e|[self1 g1]]; [done|].
    intros H. inversion H; subst. left. eauto 10.
  - destruct sf, (in_aggressive self) eqn:Ha, (probe_mode self) eqn:Hp; simpl;
      intros H; inversion H; subst; auto 10.
Qed.

Lemma trigger_cases self g self1 g1 :
  trigger_aggressive_mode self g = inr (self1, g1) ->
  (aggressive_cycles self < 4
   /\ Random.randint (fst (aggro_range self)) (snd (aggro_range self)) g
      = inr (aggressive_cycles self1, g1)
   /\ self1 = set_aggressive_cycles self (aggressive_cycles self1))
  \/ (4 <= aggressive_cycles self /\ self1 = self /\ g1 = g).
Proof.
  unfold trigger_aggressive_mode.
  destruct (aggressive_cycles self <? 4) eqn:Hlt.
  - destruct (Random.randint _ _ g) as [e|[n g2]]; [done|].
    intros H. inversion H; subst. left. split; [lia|done].
  - intros H. inversion H; subst. right. split; [lia|done].
Qed.

Lemma tick_cycles self now :
  aggressive_cycles (tick self now)
  = if 0 <? aggressive_cycles self then aggressive_cycles self - 1
    else aggressive_cycles self.
Proof.
  unfold tick.
  destruct (0 <? aggressive_cycles self); cbn [probe_mode probe_start
    set_aggressive_cycles];
    destruct (probe_mode self); try done;
    destruct (probe_start self) as [start|]; try done;
    by destruct (negb _).
Qed.

Lemma tick_range self now : aggro_range (tick self now) = aggro_range self.
Proof.
  unfold tick.
  destruct (0 <? aggressive_cycles self); cbn [probe_mode probe_start
    set_aggressive_cycles];
    destruct (probe_mode self); try done;
    destruct (probe_start self) as [start|]; try done;
    by destruct (negb _).
Qed.

(** The probe fields after [tick]: cleared when the probe has lasted
    longer than its duration, and kept otherwise. *)
Lemma tick_probe self now :
  (probe_mode (tick self now) = false /\ probe_start (tick self now) = None
   /\ probe_mode self = true
   /\ exists start, probe_start self = Some start
                    /\ Qle_bool (now - start) (probe_duration self) = false)
  \/ (probe_mode (tick self now) = probe_mode self
      /\ probe_start (tick self now) = probe_start self).
Proof.
  unfold tick.
  destruct (0 <? aggressive_cycles self); cbn [probe_mode probe_start
    probe_duration set_aggressive_cycles];
    destruct (probe_mode self) eqn:Hp; [|by right| |by right];
    (destruct (probe_start self) as [start|] eqn:Hs; [|by right]);
    (destruct (Qle_bool (now - start) (probe_duration self)) eqn:Hq;
     cbn [negb]; [by right|]);
    left; cbn [probe_mode probe_start set_probe]; eauto 10.
Qed.

Lemma consistent_init pd range : 0 <= fst range -> consistent (init pd range).
Proof.
  intros H. unfold consistent, init. simpl.
  split; [|by auto with lia]. split; [by intros [? ?]|done].
Qed.

Lemma consistent_step self self' :
  step self self' -> consistent self -> consistent self'.
Proof.
  intros Hstep (Hprobe & Hnonneg & Hexcl & Hrange).
  destruct Hstep as [self sf ff now g r self' g' Hop|self now].
  - destruct (on_slot_detected_cases _ _ _ _ _ _ _ _ Hop)
      as [(_ & _ & self1 & Htr & ->)|[(_ & _ & Ha & Hp & _ & -> & _)|(_ & _ & -> & _)]].
    + destruct (trigger_cases _ _ _ _ Htr) as [(_ & Hr & ->)|(_ & -> & _)].
      * unfold consistent. simpl. unfold Random.randint in Hr.
        destruct (_ <=? 0) eqn:Hw; [done|]. inversion Hr as [[Hn Hg]].
        pose proof (Z.mod_pos_bound (Random.raw g)
                      (snd (aggro_range self) - fst (aggro_range self) + 1)).
        split; [split; [by intros [? ?]|done]|]. split; [lia|done].
      * unfold consistent. simpl.
        split; [split; [by intros [? ?]|done]|]. done.
    + unfold consistent, in_aggressive in *. simpl.
      split; [split; [done|by eauto]|]. split; [done|]. split; [lia|done].
    + done.
  - unfold consistent. rewrite tick_cycles, tick_range.
    destruct (tick_probe self now) as [(-> & -> & _)|(-> & ->)].
    + split; [split; [by intros [? ?]|done]|].
      destruct (0 <? aggressive_cycles self) eqn:?; split; try done; lia.
    + split; [done|].
      destruct (0 <? aggressive_cycles self) eqn:?; split; try done; try lia.
      split; [|done]. intros Hp. specialize (Hexcl Hp). lia.
Qed.

Lemma consistent_reachable start self :
  consistent start -> reachable start self -> consistent self.
Proof.
  intros Hstart. induction 1 as [|self self' _ IH Hstep]; [done|].
  by eapply consistent_step.
Qed.

End RefreshModeFacts.

(** ** A cycle with filtered matches *)

(** C5.  For a scheduler whose range of aggressive cycles is not empty and
    starts above 0 (the range of [main] is 6 to 8), [on_slot_detected] with
    filtered matches returns "aggressive" and leaves the scheduler
    aggressive with a positive number of cycles and with the probe cleared.
    The number is drawn anew from the range if and only if it was below 4:
    then one draw is taken from the generator, and else the number and the
    generator are unchanged. *)
Theorem filtered_match_rearms self slots_found now g :
  0 < fst (RefreshMode.aggro_range self) ->
  fst (RefreshMode.aggro_range self) <= snd (RefreshMode.aggro_range self) ->
  exists self' g',
    RefreshMode.on_slot_detected self slots_found true now g
      = inr ("aggressive", self', g')
    /\ RefreshMode.mode_of self' = RefreshMode.Aggressive
    /\ 0 < RefreshMode.aggressive_cycles self'
    /\ RefreshMode.probe_mode self' = false
    /\ RefreshMode.probe_start self' = None
    /\ (RefreshMode.aggressive_cycles self < 4 ->
          Random.randint (fst (RefreshMode.aggro_range self))
                         (snd (RefreshMode.aggro_range self)) g
            = inr (RefreshMode.aggressive_cycles self', g')
          /\ fst (RefreshMode.aggro_range self) <= RefreshMode.aggressive_cycles self'
             <= snd (RefreshMode.aggro_range self)
          /\ g' = Random.advance g)
    /\ (4 <= RefreshMode.aggressive_cycles self ->
          RefreshMode.aggressive_cycles self' = RefreshMode.aggressive_cycles self
          /\ g' = g)
    /\ (g' <> g <-> RefreshMode.aggressive_cycles self < 4).
Proof.
  intros Hpos Hrange.
  destruct (RefreshModeFacts.randint_in_range _ _ g Hrange) as (n & Hn & Hbounds).
  unfold RefreshMode.on_slot_detected, RefreshMode.trigger_aggressive_mode,
    RefreshMode.mode_of, RefreshMode.in_aggressive.
  destruct (RefreshMode.aggressive_cycles self <? 4) eqn:Hlt.
  - rewrite Hn. eexists _, _. split; [reflexivity|]. simpl.
    assert ((0 <? n) = true) as -> by lia.
    repeat split; try done; try lia.
    intros _. apply RefreshModeFacts.advance_neq.
  - eexists _, _. split; [reflexivity|]. simpl.
    assert ((0 <? RefreshMode.aggressive_cycles self) = true) as -> by lia.
    repeat split; try done; try lia.
Qed.

(** The scheduler of [main], fresh, in a cycle with filtered matches: the
    first draw of the counting generator gives 6 cycles. *)
Lemma filtered_match_rearms_witness :
  exists self' g',
    RefreshMode.on_slot_detected RefreshMode.default true true 0 Script.counting
      = inr ("aggressive", self', g')
    /\ 0 < RefreshMode.aggressive_cycles self'.
Proof.
  destruct (filtered_match_rearms RefreshMode.default true 0%Q Script.counting)
    as (self' & g' & Hop & _ & Hpos & _).
  - simpl. lia.
  - simpl. lia.
  - exists self', g'. split; [exact Hop|exact Hpos].
Defined.

(** ** Probe mode *)

(** C6.  An operation that returns takes a scheduler into probe mode only
    as [on_slot_detected] with slots found, no filtered match, the scheduler
    not aggressive and not yet probing; it then returns "probe" and stores
    the current time, and it does so whenever these conditions hold.  [tick]
    never enters probe mode, and it leaves it, clearing both fields, when
    the time since the stored start exceeds the probe duration. *)
Theorem probe_entry_and_exit self :
  (forall sf ff now g r self' g',
     RefreshMode.on_slot_detected self sf ff now g = inr (r, self', g') ->
     RefreshMode.probe_mode self = false ->
     RefreshMode.probe_mode self' = true ->
     sf = true /\ ff = false
     /\ RefreshMode.in_aggressive self = false
     /\ (0 <= RefreshMode.aggressive_cycles self ->
         RefreshMode.aggressive_cycles self = 0)
     /\ r = "probe"
     /\ RefreshMode.probe_start self' = Some now)
  /\ (forall now g,
        RefreshMode.in_aggressive self = false ->
        RefreshMode.probe_mode self = false ->
        RefreshMode.on_slot_detected self true false now g
          = inr ("probe", RefreshMode.set_probe self true (Some now), g))
  /\ (forall now,
        RefreshMode.probe_mode self = false ->
        RefreshMode.probe_mode (RefreshMode.tick self now) = false)
  /\ (forall now start,
        RefreshMode.probe_mode self = true ->
        RefreshMode.probe_start self = Some start ->
        (RefreshMode.probe_duration self < now - start)%Q ->
        RefreshMode.probe_mode (RefreshMode.tick self now) = false
        /\ RefreshMode.probe_start (RefreshMode.tick self now) = None).
Proof.
  split; [|split; [|split]].
  - intros sf ff now g r self' g' Hop Hoff Hon.
    destruct (RefreshModeFacts.on_slot_detected_cases _ _ _ _ _ _ _ _ Hop)
      as [(_ & _ & self1 & _ & ->)|[(-> & -> & Ha & _ & -> & -> & _)|(_ & _ & -> & _)]].
    + simpl in Hon. discriminate.
    + repeat split; try done. unfold RefreshMode.in_aggressive in Ha. lia.
    + congruence.
  - intros now g Ha Hp. unfold RefreshMode.on_slot_detected. by rewrite Ha, Hp.
  - intros now Hp.
    destruct (RefreshModeFacts.tick_probe self now) as [(? & _)|(-> & _)]; done.
  - intros now start Hp Hs Hlt.
    destruct (RefreshModeFacts.tick_probe self now) as [(? & ? & _)|(Hp' & Hs')];
      [done|].
    exfalso. revert Hp' Hs'. unfold RefreshMode.tick.
    assert (Qle_bool (now - start) (RefreshMode.probe_duration self) = false) as Hq.
    { apply not_true_is_false. rewrite Qle_bool_iff. by apply Qlt_not_le. }
    destruct (0 <? RefreshMode.aggressive_cycles self);
      cbn [RefreshMode.probe_mode RefreshMode.probe_start RefreshMode.probe_duration
           RefreshMode.set_aggressive_cycles];
      rewrite Hp, Hs, Hq; simpl; congruence.
Qed.

(** A fresh scheduler enters probe mode at time 100 and leaves it with the
    tick at time 111, more than 10 seconds later. *)
Lemma probe_entry_and_exit_witness :
  RefreshMode.on_slot_detected RefreshMode.default true false 100 Script.counting
    = inr ("probe", RefreshMode.set_probe RefreshMode.default true (Some 100%Q),
           Script.counting)
  /\ RefreshMode.probe_mode
       (RefreshMode.tick (RefreshMode.set_probe RefreshMode.default true (Some 100%Q))
          111)
     = false.
Proof.
  split.
  - apply (proj1 (proj2 (probe_entry_and_exit RefreshMode.default))); reflexivity.
  - apply (proj2 (proj2 (proj2 (probe_entry_and_exit
             (RefreshMode.set_probe RefreshMode.default true (Some 100%Q)))))
             111%Q 100%Q); reflexivity.
Defined.

(** ** The state invariant *)

(** C7.  Every scheduler reached from a construction whose range of
    aggressive cycles starts at 0 or above (the range of [main] is 6 to 8),
    by any sequence of [on_slot_detected] and [tick], has a probe start if
    and only if it is in probe mode, in the sense of the flag and in the
    sense of the cadence, and a number of aggressive cycles that is not
    negative; [tick] lowers that number by one and stops at 0. *)
Theorem scheduler_invariant probe_duration aggro_range self :
  0 <= fst aggro_range ->
  RefreshMode.reachable (RefreshMode.init probe_duration aggro_range) self ->
  (RefreshMode.probe_start self <> None <-> RefreshMode.in_probe self = true)
  /\ (RefreshMode.probe_start self <> None
      <-> RefreshMode.mode_of self = RefreshMode.Probe)
  /\ 0 <= RefreshMode.aggressive_cycles self
  /\ (forall now,
        RefreshMode.aggressive_cycles (RefreshMode.tick self now)
        = Z.max 0 (RefreshMode.aggressive_cycles self - 1)).
Proof.
  intros Hrange Hreach.
  destruct (RefreshModeFacts.consistent_reachable _ _
              (RefreshModeFacts.consistent_init probe_duration aggro_range Hrange)
              Hreach) as (Hprobe & Hnonneg & Hexcl & _).
  assert (Hsome : RefreshMode.probe_start self <> None
                  <-> RefreshMode.probe_mode self = true).
  { rewrite <- Hprobe. rewrite <- not_eq_None_Some. done. }
  split; [exact Hsome|]. split; [|split; [done|]].
  - rewrite Hsome. unfold RefreshMode.mode_of, RefreshMode.in_aggressive,
      RefreshMode.in_probe.
    destruct (RefreshMode.probe_mode self) eqn:Hp.
    + rewrite (Hexcl eq_refl). simpl. done.
    + destruct (0 <? RefreshMode.aggressive_cycles self); split; done.
  - intros now. rewrite RefreshModeFacts.tick_cycles.
    destruct (0 <? RefreshMode.aggressive_cycles self) eqn:?; lia.
Qed.

(** The scheduler of [main] after a cycle with filtered matches and a
    tick. *)
Lemma scheduler_invariant_witness :
  0 <= RefreshMode.aggressive_cycles
         (RefreshMode.tick
            (RefreshMode.set_probe
               (RefreshMode.set_aggressive_cycles RefreshMode.default 6) false None)
            5).
Proof.
  refine (proj1 (proj2 (proj2 (scheduler_invariant 10%Q (6, 8) _ _ _)))).
  - simpl. lia.
  - eapply RefreshMode.reachable_step; [eapply RefreshMode.reachable_step|].
    + apply RefreshMode.reachable_init.
    + eapply (RefreshMode.step_on_slot_detected _ true true 0%Q Script.counting).
      vm_compute. reflexivity.
    + apply RefreshMode.step_tick.
Defined.

(** * Properties of the polling loop *)

Module MainFacts.

Import Main.

Lemma reservations_app tr1 tr2 :
  reservations (tr1 ++ tr2) = reservations tr1 ++ reservations tr2.
Proof.
  induction tr1 as [|ev tr1 IH]; [done|]. destruct ev; simpl; by rewrite ?IH.
Qed.

Lemma multipliers_app tr1 tr2 :
  multipliers (tr1 ++ tr2) = multipliers tr1 ++ multipliers tr2.
Proof.
  induction tr1 as [|ev tr1 IH]; [done|]. destruct ev; simpl; by rewrite ?IH.
Qed.

(** The three readings of [attempts]. *)
Lemma attempts_prefix filtered log :
  attempts filtered log ->
  log.*1 = take (length log) (element_id <$> filtered).
Proof.
  induction 1 as [| |s rest r log _ _ IH]; simpl; rewrite ?take_0; [done..|].
  f_equal. exact IH.
Qed.

Lemma attempts_no_change_last filtered log k i :
  attempts filtered log -> log !! k = Some (i, "no_change") -> length log = S k.
Proof.
  intros H. revert k. induction H as [| |s rest r log Hr _ IH]; intros k Hk.
  - done.
  - destruct k; [done|]. by destruct k.
  - destruct k as [|k]; simpl in Hk.
    + congruence.
    + simpl. f_equal. by apply IH.
Qed.

Lemma attempts_cut_short filtered log :
  attempts filtered log ->
  (length log < length filtered)%nat ->
  exists i, last log = Some (i, "no_change").
Proof.
  induction 1 as [| |s rest r log Hr H IH]; simpl; intros Hlen.
  - lia.
  - eauto.
  - destruct IH as [i Hi]; [lia|]. exists i.
    destruct log; [done|]. by rewrite last_cons_cons.
Qed.

Lemma attempts_continue filtered log k i r :
  attempts filtered log ->
  log !! k = Some (i, r) -> r <> "no_change" ->
  (S k < length filtered)%nat ->
  exists s, filtered !! S k = Some s
            /\ exists r', log !! S k = Some (element_id s, r').
Proof.
  intros H. revert k. induction H as [| |s rest r0 log Hr H IH]; intros k Hk Hne Hlen.
  - done.
  - destruct k; [|by destruct k]. simpl in Hk. congruence.
  - destruct k as [|k]; simpl in *.
    + destruct H as [| s' rest'|s' rest' r' log' Hr' H']; simpl in *;
        [lia|eauto..].
    + apply (IH k Hk Hne). lia.
Qed.

(** Unfolding of the operations of [M]. *)
Ltac run :=
  repeat progress
    (unfold mbind, M_bind, bind, mret, M_ret, ret, bot_send, emit,
       do_reserve_slot, do_confirm_booking, do_sleep, call, call_exn; cbn).

(** The last conjuncts of [part]. *)
Ltac close_part :=
  repeat split; auto;
  first [ by constructor
        | by (intros ? [=])
        | (intros ? [= <-]; cbn in *; congruence) ].

Section Reserve.

Context {W : Type} `{!Outside W}.

(** The reservation loop returns; the reservations in its trace follow
    the candidates and are the answers of the portal, and it does not
    sleep. *)
Lemma reserve_loop_attempts auto_book filtered booked0 (e : env) :
  exists tr booked e',
    reserve_loop auto_book filtered booked0 e
      = (inr booked, e')
    /\ trace e' = trace e ++ tr
    /\ attempts filtered (reservations tr)
    /\ multipliers tr = []
    /\ reservations tr = portal_answers auto_book filtered (world e).
Proof.
  revert booked0 e. induction filtered as [|s rest IH]; intros booked0 e.
  { exists [], booked0, e. run. rewrite app_nil_r. eauto using attempts. }
  cbn [reserve_loop portal_answers]. run.
  destruct (reserve_slot (element_id s) (world e)) as [[result txt] w1] eqn:Hr.
  run.
  destruct (String.eqb result "success") eqn:Hsuccess.
  { apply String.eqb_eq in Hsuccess. subst result.
    destruct auto_book; run.
    - destruct (confirm_booking w1) as [ok w2] eqn:Hc. run.
      destruct ok; run;
        match goal with
        | |- context [reserve_loop _ rest ?b ?e1] =>
            destruct (IH b e1)
              as (tr & booked & e' & -> & Htr & Hatt & Hmul & Hans)
        end;
        cbn in Htr, Hans; rewrite <- !app_assoc in Htr;
        eexists _, booked, e'; (split; [reflexivity|]);
        (split; [exact Htr|]); cbn; rewrite ?reservations_app, ?multipliers_app;
        (split; [by apply attempts_next|]); (split; [done|]);
        by rewrite Hans.
    - match goal with
      | |- context [reserve_loop _ rest ?b ?e1] =>
          destruct (IH b e1)
            as (tr & booked & e' & -> & Htr & Hatt & Hmul & Hans)
      end.
      cbn in Htr, Hans; rewrite <- !app_assoc in Htr.
      eexists _, booked, e'. split; [reflexivity|].
      split; [exact Htr|]. cbn. split; [by apply attempts_next|].
      split; [done|]. by rewrite Hans. }
  destruct (String.eqb result "no_change") eqn:Hno.
  { apply String.eqb_eq in Hno. subst result.
    eexists _, booked0, _. split; [reflexivity|]. cbn.
    rewrite <- !app_assoc. split; [reflexivity|]. cbn.
    split; [apply attempts_stop|done]. }
  apply String.eqb_neq in Hno.
  destruct (String.eqb result "alert") eqn:Halert; run;
    match goal with
    | |- context [reserve_loop _ rest ?b ?e1] =>
        destruct (IH b e1)
          as (tr & booked & e' & -> & Htr & Hatt & Hmul & Hans)
    end;
    cbn in Htr, Hans; rewrite <- !app_assoc in Htr;
    eexists _, booked, e'; (split; [reflexivity|]);
    (split; [exact Htr|]); cbn; (split; [by apply attempts_next|]);
    (split; [done|]); by rewrite Hans.
Qed.

End Reserve.

Section Quiet.

Context {W : Type} `{!Outside W}.

(** The confirmation loop returns; it neither reserves nor sleeps at
    random, and it keeps the backoff multiplier. *)
Lemma confirm_loop_quiet booked_slots v booked (e : env) :
  exists tr v' booked' e',
    confirm_loop booked_slots v booked e
      = (inr (v', booked'), e')
    /\ trace e' = trace e ++ tr
    /\ reservations tr = []
    /\ multipliers tr = []
    /\ backoff_multiplier v' = backoff_multiplier v.
Proof.
  revert v booked e. induction booked_slots as [|s rest IH]; intros v booked e.
  { exists [], v, booked, e. run. by rewrite app_nil_r. }
  cbn [confirm_loop]. unfold is_slot_confirmed. run.
  destruct (get_all_manual_bookings (world e)) as [bookings w1] eqn:Hb. run.
  destruct (existsb _ bookings); run.
  - destruct (get_all_manual_bookings w1) as [updated w2] eqn:Hu. run.
    match goal with
    | |- context [confirm_loop rest ?v1 ?b ?e1] =>
        destruct (IH v1 b e1) as (tr & v' & b' & e' & -> & Htr & Hres & Hmul & Hv)
    end.
    cbn in Htr. rewrite <- !app_assoc in Htr.
    eexists _, v', b', e'. split; [reflexivity|]. split; [exact Htr|].
    cbn. rewrite Hv. repeat split; try done. by destruct updated.
  - match goal with
    | |- context [confirm_loop rest ?v1 ?b ?e1] =>
        destruct (IH v1 b e1) as (tr & v' & b' & e' & -> & Htr & Hres & Hmul & Hv)
    end.
    cbn in Htr. rewrite <- !app_assoc in Htr.
    eexists _, v', b', e'. split; [reflexivity|]. split; [exact Htr|]. done.
Qed.

Lemma dry_run_loop_quiet filtered (e : @env W) :
  exists tr e',
    dry_run_loop filtered e = (inr tt, e')
    /\ trace e' = trace e ++ tr
    /\ reservations tr = []
    /\ multipliers tr = [].
Proof.
  revert e. induction filtered as [|s rest IH]; intros e.
  { exists [], e. run. by rewrite app_nil_r. }
  cbn [dry_run_loop]. run.
  match goal with
  | |- context [dry_run_loop rest ?e1] =>
      destruct (IH e1) as (tr & e' & -> & Htr & Hres & Hmul)
  end.
  cbn in Htr. rewrite <- !app_assoc in Htr.
  eexists _, e'. split; [reflexivity|]. split; [exact Htr|]. done.
Qed.

(** The reply to a command neither reserves nor sleeps at random, and it
    leaves the generator alone. *)
Lemma handle_command_quiet cmd (e : env) :
  exists tr r e',
    handle_command cmd e = (r, e')
    /\ rng e' = rng e
    /\ trace e' = trace e ++ tr
    /\ reservations tr = []
    /\ multipliers tr = [].
Proof.
  unfold handle_command. destruct cmd as [c|].
  2:{ exists [], (inr tt), e. run. by rewrite app_nil_r. }
  destruct (String.eqb c "status"); run.
  { eexists [_], _, _. repeat split; reflexivity. }
  destruct (String.eqb c "screen"); run.
  { destruct (screenshot (world e)) as [[x|[]] w1]; run.
    - eexists [], _, _. split; [reflexivity|]. cbn. by rewrite app_nil_r.
    - eexists [_], _, _. repeat split; reflexivity. }
  destruct (String.eqb c "stats"); run.
  { eexists [_], _, _. repeat split; reflexivity. }
  exists [], (inr tt), e. by rewrite app_nil_r.
Qed.

End Quiet.

Lemma reservations_sent out : reservations (Sent <$> out) = [].
Proof. by induction out. Qed.

Lemma multipliers_sent out : multipliers (Sent <$> out) = [].
Proof. by induction out. Qed.

Section Cycle.

Context {W : Type} `{!Outside W}.
Variable cfg : config.

Lemma end_of_cycle_part v v0 (e : env) :
  backoff_multiplier v = backoff_multiplier v0 ->
  part v0 (eq []) (end_of_cycle v) e.
Proof.
  intros Hv. unfold part, end_of_cycle, do_sleep_random. run.
  destruct (sleep_random (refresh_mode v) (backoff_multiplier v) (rng e))
    as [d g] eqn:Hd.
  run. eexists _, _, _. split; [reflexivity|]. cbn.
  split; [reflexivity|]. cbn. rewrite Hv. close_part.
Qed.

Lemma book_part v v0 filtered (e : env) :
  backoff_multiplier v = backoff_multiplier v0 ->
  part v0 (book_log cfg filtered (world e))
    (book cfg v filtered) e.
Proof.
  intros Hv. unfold part, book, book_log.
  destruct (default false (cfg_dry_run cfg)) eqn:Hdry.
  { destruct (dry_run_loop_quiet filtered e) as (tr & e' & Hrun & Htr & Hres & Hmul).
    exists tr, (inr (Break v)), e'. run. rewrite Hrun. run.
    rewrite Hmul, Hres. close_part. }
  generalize (default false (cfg_auto_book cfg)). intros auto_book.
  destruct (reserve_loop_attempts auto_book filtered [] e)
    as (tr1 & booked_slots & e1 & Hrun1 & Htr1 & Hatt & Hmul1 & Hans).
  run. rewrite Hrun1. run.
  destruct (nonempty booked_slots && negb auto_book) eqn:Hwait; run.
  - match goal with
    | |- context [confirm_loop booked_slots v false ?e2] =>
        destruct (confirm_loop_quiet booked_slots v false e2)
          as (tr2 & v2 & booked & e3 & Hrun2 & Htr2 & Hres2 & Hmul2 & Hv2)
    end.
    rewrite Hrun2. run. cbn in Htr2.
    destruct (open_practical_safe (world e3)) as [[x|[]] w4] eqn:Hopen; run.
    + eexists _, _, _. split; [reflexivity|]. cbn.
      rewrite Htr2, Htr1, <- !app_assoc. split; [reflexivity|].
      rewrite !multipliers_app, !reservations_app, Hmul1, Hmul2, Hres2. cbn.
      rewrite app_nil_r. close_part.
    + destruct booked; run.
      * eexists _, _, _. split; [reflexivity|]. cbn.
        rewrite Htr2, Htr1, <- !app_assoc. split; [reflexivity|].
        rewrite !multipliers_app, !reservations_app, Hmul1, Hmul2, Hres2. cbn.
        rewrite app_nil_r. close_part.
      * unfold end_of_cycle, do_sleep_random. run.
        destruct (sleep_random _ (backoff_multiplier v2) (rng e3)) as [d g] eqn:Hd.
        run.
        eexists _, _, _. split; [reflexivity|]. cbn.
        rewrite Htr2, Htr1, <- !app_assoc. split; [reflexivity|].
        rewrite !multipliers_app, !reservations_app, Hmul1, Hmul2, Hres2. cbn.
        rewrite app_nil_r, Hv2, Hv. close_part.
  - unfold end_of_cycle, do_sleep_random. run.
    destruct (sleep_random _ (backoff_multiplier v) (rng e1)) as [d g] eqn:Hd.
    run.
    eexists _, _, _. split; [reflexivity|]. cbn.
    rewrite Htr1, <- !app_assoc. split; [reflexivity|].
    rewrite !multipliers_app, !reservations_app, Hmul1. cbn.
    rewrite app_nil_r, Hv. close_part.
Qed.

(** A part that runs after a stretch of the trace without reservations
    and random sleeps. *)
Lemma part_after v (log : list (string * string) -> Prop) (m : @M W control)
    (e e1 : @env W) pre :
  trace e1 = trace e ++ pre ->
  reservations pre = [] -> multipliers pre = [] ->
  part v log m e1 ->
  exists tr r e',
    m e1 = (r, e')
    /\ trace e' = trace e ++ tr
    /\ Forall (eq (backoff_multiplier v)) (multipliers tr)
    /\ (forall c, r = inr c ->
          backoff_multiplier (vars_of c) = backoff_multiplier v)
    /\ log (reservations tr).
Proof.
  intros Hpre Hres Hmul (tr & r & e' & Hrun & Htr & Hm & Hc & Hlog).
  exists (pre ++ tr), r, e'.
  rewrite Htr, Hpre, <- app_assoc, multipliers_app, reservations_app, Hres, Hmul.
  done.
Qed.

Lemma part_weaken v (log log' : list (string * string) -> Prop)
    (m : @M W control) (e : @env W) :
  (forall l, log l -> log' l) -> part v log m e -> part v log' m e.
Proof.
  intros Hl (tr & r & e' & Hrun & Htr & Hm & Hc & Hlog).
  exists tr, r, e'. repeat split; auto.
Qed.

Lemma act_part v all_slots (e : env) :
  part v (act_log cfg v all_slots (world e) (time_time (world e)) (rng e))
    (act cfg v all_slots) e.
Proof.
  unfold act, act_log. destruct (nonempty all_slots) eqn:Hany.
  2:{ eapply part_weaken; [|by apply end_of_cycle_part]. by intros l <-. }
  unfold part, do_filter, do_on_slot_detected. run.
  destruct (Filter.filter_practical_slots all_slots cfg (all_manual_bookings v))
    as [[x|filtered] out] eqn:Hfilter; run.
  { eexists _, _, _. split; [reflexivity|]. cbn. split; [reflexivity|].
    rewrite multipliers_sent, reservations_sent. close_part. }
  destruct (RefreshMode.on_slot_detected (refresh_mode v) true (nonempty filtered)
              (time_time (world e)) (rng e)) as [x|[[r rm] g]] eqn:Hmode; run.
  { eexists _, _, _. split; [reflexivity|]. cbn. split; [reflexivity|].
    rewrite multipliers_sent, reservations_sent. close_part. }
  destruct (nonempty filtered) eqn:Hsome; cbn [negb].
  - eapply (part_after v _ _ e _ (Sent <$> out));
      [reflexivity|apply reservations_sent|apply multipliers_sent|].
    match goal with
    | |- part _ _ (book _ ?v1 _) ?e1 => by apply (book_part v1 v filtered e1)
    end.
  - eapply (part_after v _ _ e _ (Sent <$> out));
      [reflexivity|apply reservations_sent|apply multipliers_sent|].
    eapply part_weaken; [|by apply end_of_cycle_part].
    intros l <-. destruct filtered; [|done]. unfold book_log.
    destruct (default false (cfg_dry_run cfg)); [done|].
    split; [apply attempts_none|done].
Qed.

Lemma cycle_part v (e : env) :
  part v (cycle_log cfg v e) (cycle cfg v) e.
Proof.
  unfold cycle, part, cycle_log. run.
  destruct (check_commands (world e)) as [cmd w1] eqn:Hcmd. run.
  destruct (bool_decide (cmd = Some "stop")); run.
  { destruct (open_logout w1) as [[x|[]] w2]; run.
    - exists [], (inl x), {| world := w2; rng := rng e; trace := trace e |}.
      cbn. rewrite app_nil_r. close_part.
    - eexists [_; _], _, _. split; [reflexivity|]. cbn.
      rewrite <- app_assoc. split; [reflexivity|]. close_part. }
  destruct (handle_command_quiet cmd {| world := w1; rng := rng e; trace := trace e |})
    as (pre & r0 & e1 & Hh & Hg & Hpre & Hres & Hmul).
  cbn in Hg, Hpre. rewrite Hh. destruct r0 as [x|[]]; run.
  { exists pre, (inl x), e1. rewrite Hmul, Hres. close_part. }
  destruct (get_slot_statuses (world e1)) as [[x|all_slots] w2] eqn:Hpage; run.
  { eexists pre, _, _. split; [reflexivity|]. cbn.
    rewrite Hmul, Hres. close_part. }
  apply (part_after v (act_log cfg v all_slots w2 (time_time w2) (rng e1))
           (act cfg v all_slots)
           e {| world := w2; rng := rng e1; trace := trace e1 |} pre
           Hpre Hres Hmul).
  exact (act_part v all_slots {| world := w2; rng := rng e1; trace := trace e1 |}).
Qed.

(** The loop sleeps with the backoff multiplier that it starts with, and
    ends with it. *)
Lemma while_true_part fuel v (e : env) :
  part v (fun _ => True) (while_true cfg fuel v) e.
Proof.
  revert v e. induction fuel as [|n IH]; intros v e.
  { exists [], (inr (Continue v)), e. rewrite app_nil_r. close_part. }
  destruct (cycle_part v e) as (tr1 & r1 & e1 & Hrun1 & Htr1 & Hmul1 & Hc1 & _).
  unfold part. cbn [while_true]. run. rewrite Hrun1.
  destruct r1 as [x|[v1|v1]]; run.
  - exists tr1, (inl x), e1. close_part.
  - destruct (IH v1 e1) as (tr2 & r2 & e2 & Hrun2 & Htr2 & Hmul2 & Hc2 & _).
    pose proof (Hc1 _ eq_refl) as Hv1. cbn in Hv1.
    exists (tr1 ++ tr2), r2, e2.
    rewrite Htr2, Htr1, <- app_assoc, multipliers_app, Forall_app.
    rewrite Hv1 in Hmul2, Hc2. close_part.
  - exists tr1, (inr (Break v1)), e1. close_part.
Qed.

(** An exception in a cycle ends the loop: the cycle is not tried
    again. *)
Lemma while_true_raises n v (e e1 : env) x :
  cycle cfg v e = (inl x, e1) -> while_true cfg (S n) v e = (inl x, e1).
Proof. intros H0. cbn [while_true]. run. by rewrite H0. Qed.

Lemma main_part fuel (e : env) :
  exists tr r e',
    main cfg fuel e = (r, e')
    /\ trace e' = trace e ++ tr
    /\ Forall (eq 1%Q) (multipliers tr)
    /\ (forall c, r = inr c -> backoff_multiplier (vars_of c) = 1%Q).
Proof.
  unfold main. run.
  destruct (get_all_manual_bookings (world e)) as [bookings w1]. run.
  destruct (open_practical_safe w1) as [[x|[]] w2]; run.
  { exists [], (inl x), {| world := w2; rng := rng e; trace := trace e |}.
    rewrite app_nil_r. close_part. }
  destruct (while_true_part fuel (start bookings)
              {| world := w2; rng := rng e; trace := trace e |})
    as (tr & r & e' & Hrun & Htr & Hmul & Hc & _).
  exists tr, r, e'. done.
Qed.

End Cycle.

Lemma on_slot_detected_returns self sf ff now g :
  fst (RefreshMode.aggro_range self) <= snd (RefreshMode.aggro_range self) ->
  exists r, RefreshMode.on_slot_detected self sf ff now g = inr r.
Proof.
  intros Hrange.
  destruct (RefreshModeFacts.randint_in_range _ _ g Hrange) as (n & Hn & _).
  unfold RefreshMode.on_slot_detected, RefreshMode.trigger_aggressive_mode.
  rewrite Hn.
  repeat match goal with
         | |- context [if ?c then _ else _] => destruct c
         end; eauto.
Qed.

(** [sleep_random] multiplies the base delay of the mode, which does not
    depend on the multiplier, by the multiplier that it is given. *)
Lemma sleep_random_scales rm b g :
  sleep_random rm b g
  = ((fst (base_delay rm g) * b)%Q, snd (base_delay rm g)).
Proof. unfold sleep_random. by destruct (base_delay rm g). Qed.

End MainFacts.

(** * The reservations of a cycle *)

(** C8.  In a cycle that is not stopped, in which the reply to a command
    does not raise and the page loads, that is not a dry run and in which the
    filter returns the candidates, the calls to [reserve_slot] are made for
    the candidates in their order, one call per candidate, from the first
    candidate on, and the answers that the loop acts on are those that the
    portal returns, call by call, from the world that the page load has
    left; a call that the portal answers with "no_change" is the last call
    of the cycle; after any other answer (alert, error, success) the next
    candidate is tried; and candidates are left untried only after a
    "no_change". *)
Theorem reservations_follow_filtered_order {W : Type} `{!Outside W}
    (cfg : config) (v : Main.vars) (e e1 : Main.env)
    cmd w1 all_slots w2 candidates out :
  check_commands (Main.world e) = (cmd, w1) ->
  cmd <> Some "stop" ->
  Main.handle_command cmd (Main.mkenv w1 (Main.rng e) (Main.trace e))
    = (inr tt, e1) ->
  get_slot_statuses (Main.world e1) = (inr all_slots, w2) ->
  Filter.filter_practical_slots all_slots cfg (Main.all_manual_bookings v)
    = (inr candidates, out) ->
  default false (cfg_dry_run cfg) = false ->
  fst (RefreshMode.aggro_range (Main.refresh_mode v))
    <= snd (RefreshMode.aggro_range (Main.refresh_mode v)) ->
  exists tr r e',
    Main.cycle cfg v e = (r, e')
    /\ Main.trace e' = Main.trace e ++ tr
    /\ let log := reservations tr in
       log = Main.portal_answers (default false (cfg_auto_book cfg)) candidates w2
       /\ log.*1 = take (length log) (element_id <$> candidates)
       /\ (candidates <> [] -> log <> [])
       /\ (forall k i, log !! k = Some (i, "no_change") -> length log = S k)
       /\ (forall k i a,
             log !! k = Some (i, a) -> a <> "no_change" ->
             (S k < length candidates)%nat ->
             exists s, candidates !! S k = Some s
                       /\ exists a', log !! S k = Some (element_id s, a'))
       /\ ((length log < length candidates)%nat ->
             exists i, last log = Some (i, "no_change")).
Proof.
  intros Hcmd Hstop Hreply Hpage Hfilter Hdry Hrange.
  destruct (MainFacts.cycle_part cfg v e)
    as (tr & r & e' & Hrun & Htr & _ & _ & Hlog).
  exists tr, r, e'. split; [exact Hrun|]. split; [exact Htr|].
  assert (Hatt : attempts candidates (reservations tr)
                 /\ reservations tr
                    = Main.portal_answers (default false (cfg_auto_book cfg))
                        candidates w2).
  { unfold Main.cycle_log in Hlog. rewrite Hcmd in Hlog.
    rewrite (bool_decide_eq_false_2 _ Hstop), Hreply, Hpage in Hlog.
    unfold Main.act_log in Hlog. rewrite Hfilter in Hlog.
    destruct all_slots as [|s0 all_slots].
    - cbn in Hlog. rewrite Hlog. vm_compute in Hfilter.
      injection Hfilter as <- _. split; [apply attempts_none|done].
    - cbn [Main.nonempty] in Hlog.
      destruct (MainFacts.on_slot_detected_returns (Main.refresh_mode v) true
                  (Main.nonempty candidates) (time_time w2) (Main.rng e1) Hrange)
        as [res Hres].
      rewrite Hres in Hlog. unfold Main.book_log in Hlog. by rewrite Hdry in Hlog. }
  destruct Hatt as [Hatt Hans].
  cbv zeta. split; [exact Hans|].
  split; [exact (MainFacts.attempts_prefix _ _ Hatt)|].
  split; [|split; [|split]].
  - intros Hne Hnil. rewrite Hnil in Hatt. by inversion Hatt.
  - intros k i. exact (MainFacts.attempts_no_change_last _ _ k i Hatt).
  - intros k i a. exact (MainFacts.attempts_continue _ _ k i a Hatt).
  - exact (MainFacts.attempts_cut_short _ _ Hatt).
Qed.

(** Scenario D: three candidates, and the portal answers the second
    reservation with "no_change". *)
Lemma reservations_follow_filtered_order_witness :
  exists tr r e',
    Script.cycle Scenario.wednesdays (Main.start []) (Script.boot Scenario.stale_page)
      = (r, e')
    /\ Main.trace e' = [] ++ tr
    /\ let log := reservations tr in
       log = Main.portal_answers false
               [Scenario.wed 1; Scenario.wed 3; Scenario.wed 4]
               (Script.mk [] []
                  [("success", ""); ("no_change", ""); ("success", "")] [] [] 0)
       /\ log.*1 = take (length log)
                     (element_id <$> [Scenario.wed 1; Scenario.wed 3; Scenario.wed 4])
       /\ ([Scenario.wed 1; Scenario.wed 3; Scenario.wed 4] <> [] -> log <> [])
       /\ (forall k i, log !! k = Some (i, "no_change") -> length log = S k)
       /\ (forall k i a,
             log !! k = Some (i, a) -> a <> "no_change" ->
             (S k < length [Scenario.wed 1; Scenario.wed 3; Scenario.wed 4])%nat ->
             exists s, [Scenario.wed 1; Scenario.wed 3; Scenario.wed 4] !! S k = Some s
                       /\ exists a', log !! S k = Some (element_id s, a'))
       /\ ((length log < length [Scenario.wed 1; Scenario.wed 3; Scenario.wed 4])%nat ->
             exists i, last log = Some (i, "no_change")).
Proof.
  refine (reservations_follow_filtered_order
            Scenario.wednesdays (Main.start []) (Script.boot Scenario.stale_page)
            _ None _ [Scenario.wed 1; Scenario.wed 3; Scenario.wed 4] _
            [Scenario.wed 1; Scenario.wed 3; Scenario.wed 4] [] _ _ _ _ _ _ _).
  - reflexivity.
  - discriminate.
  - reflexivity.
  - reflexivity.
  - vm_compute. reflexivity.
  - reflexivity.
  - simpl. lia.
Defined.

(** Scenario D, run: the third candidate is never tried. *)
Example stale_page_reservations :
  reservations
    (Main.trace
       (snd (Script.cycle Scenario.wednesdays (Main.start [])
               (Script.boot Scenario.stale_page))))
  = [("btn_1", "success"); ("btn_3", "no_change")].
Proof. vm_compute. reflexivity. Qed.

(** * The backoff multiplier *)

(** C9, amended.  The backoff multiplier is 1 in every call to
    [sleep_random] of a run of [main] and in the variables that the loop
    ends with, so it is at least 1 and never decreases; no cycle changes it;
    an exception in a cycle ends the loop, so that the cycle is not tried
    again and the multiplier never grows; and [sleep_random] multiplies by it
    a base delay that is chosen from the mode without it. *)
Theorem backoff_multiplier_is_constant {W : Type} `{!Outside W} (cfg : config) :
  (forall fuel (e : Main.env),
     exists tr r e',
       Main.main cfg fuel e = (r, e')
       /\ Main.trace e' = Main.trace e ++ tr
       /\ Forall (fun m => m = 1%Q /\ (1 <= m)%Q) (multipliers tr)
       /\ (forall c, r = inr c ->
             Main.backoff_multiplier (Main.vars_of c) = 1%Q))
  /\ (forall v (e : Main.env),
        exists tr r e',
          Main.cycle cfg v e = (r, e')
          /\ Main.trace e' = Main.trace e ++ tr
          /\ Forall (eq (Main.backoff_multiplier v)) (multipliers tr)
          /\ (forall c, r = inr c ->
                Main.backoff_multiplier (Main.vars_of c) = Main.backoff_multiplier v))
  /\ (forall n v (e e1 : Main.env) x,
        Main.cycle cfg v e = (inl x, e1) ->
        Main.while_true cfg (S n) v e = (inl x, e1))
  /\ (forall rm b g,
        sleep_random rm b g
        = ((fst (base_delay rm g) * b)%Q, snd (base_delay rm g))).
Proof.
  split; [|split; [|split]].
  - intros fuel e.
    destruct (MainFacts.main_part cfg fuel e)
      as (tr & r & e' & Hrun & Htr & Hmul & Hc).
    exists tr, r, e'. repeat split; try done.
    eapply Forall_impl; [exact Hmul|]. intros m <-. split; [done|]. apply Qle_refl.
  - intros v e.
    destruct (MainFacts.cycle_part cfg v e)
      as (tr & r & e' & Hrun & Htr & Hmul & Hc & _).
    by exists tr, r, e'.
  - intros n v e e1 x. apply MainFacts.while_true_raises.
  - apply MainFacts.sleep_random_scales.
Qed.

(** A cycle in which the portal fails ends the loop at once. *)
Lemma backoff_multiplier_is_constant_witness :
  Script.while_true Scenario.base 3 (Main.start [])
    (Script.boot (Script.mk [] [inl (PortalError "timeout")] [] [] [] 0))
  = (inl (PortalError "timeout"), Script.boot (Script.mk [] [] [] [] [] 0)).
Proof.
  refine (proj1 (proj2 (proj2 (backoff_multiplier_is_constant Scenario.base)))
            2%nat (Main.start []) _ _ _ _).
  vm_compute. reflexivity.
Defined.

(** C9 as stated fails: the portal fails on the second page and would fail
    again.  The run ends with the first failure; the only sleep of the run
    used the multiplier 1; and the two further failures are never reached,
    so that nothing makes the multiplier grow. *)
Lemma backoff_never_grows :
  fst (Script.main Scenario.base 4 (Script.boot Scenario.failing_portal))
  = inl (PortalError "timeout")
  /\ multipliers
       (Main.trace (snd (Script.main Scenario.base 4
                           (Script.boot Scenario.failing_portal))))
     = [1%Q]
  /\ Script.pages
       (Main.world (snd (Script.main Scenario.base 4
                           (Script.boot Scenario.failing_portal))))
     = [inl (PortalError "timeout"); inl (PortalError "timeout")].
Proof. repeat split; vm_compute; reflexivity. Qed.

(** * Dates as text *)

Module DatetimeFacts.

Import Datetime.

Lemma split_on_nonempty sep s : Text.split_on sep s <> [].
Proof.
  destruct s as [|c s]; simpl; [done|].
  destruct (Ascii.eqb c sep); [done|]. by destruct (Text.split_on sep s).
Qed.

(** A field without the separator, followed by the separator. *)
Lemma split_on_field sep a r :
  Text.split_on sep a = [a] ->
  Text.split_on sep (a +:+ String sep r) = a :: Text.split_on sep r.
Proof.
  induction a as [|c a IH]; simpl.
  - intros _. by rewrite Ascii.eqb_refl.
  - destruct (Ascii.eqb c sep); [done|].
    destruct (Text.split_on sep a) as [|f fs] eqn:Ha.
    + by destruct (split_on_nonempty sep a).
    + intros [= -> ->]. by rewrite IH.
Qed.

Lemma append_inj_length a a' b b' :
  String.length a = String.length a' ->
  a +:+ b = a' +:+ b' -> a = a' /\ b = b'.
Proof.
  revert a'. induction a as [|c a IH]; intros [|c' a']; simpl; try done.
  intros [= Hlen] [= -> Hrest]. destruct (IH a' Hlen Hrest) as [-> ->]. done.
Qed.

Lemma days_ok : Forall Printed.day_text_ok (seqZ 1 31).
Proof. apply (bool_decide_unpack _). vm_compute. exact I. Qed.

Lemma months_ok : Forall Printed.month_text_ok (seqZ 1 12).
Proof. apply (bool_decide_unpack _). vm_compute. exact I. Qed.

Lemma years_ok : Forall Printed.year_text_ok (seqZ 1 9999).
Proof. apply (bool_decide_unpack _). vm_compute. exact I. Qed.

Lemma in_range (P : Z -> Prop) lo n x :
  Forall P (seqZ lo n) -> lo <= x < lo + n -> P x.
Proof.
  rewrite Forall_forall. intros H Hx. apply H, elem_of_seqZ. lia.
Qed.

Lemma valid_ranges d :
  valid d = true ->
  1 <= year d <= 9999 /\ 1 <= month d <= 12 /\ 1 <= day d <= 31.
Proof.
  unfold valid, days_in_month. rewrite !andb_true_iff, !Z.leb_le.
  intros (((((? & ?) & ?) & ?) & ?) & Hd).
  repeat split; try lia.
  repeat match type of Hd with
         | context [if ?c then _ else _] => destruct c
         end; lia.
Qed.

Lemma strptime_valid s d : strptime s = Some d -> valid d = true.
Proof.
  unfold strptime. intros H.
  repeat match type of H with
         | match ?x with _ => _ end = _ => destruct x eqn:?; try discriminate
         end.
  by injection H as <-.
Qed.

(** Printing with ["%d/%b/%Y"] and reading back, for the four-digit years
    of [Main.portal_format]. *)
Lemma printed_is_parsed d :
  valid d = true -> strptime (Main.portal_format d) = Some d.
Proof.
  intros Hvalid.
  destruct (valid_ranges d Hvalid) as (Hy & Hm & Hd).
  destruct (in_range _ 1 31 (day d) days_ok)
    as (Hd1 & Hd2 & _); [lia|].
  destruct (in_range _ 1 12 (month d) months_ok)
    as (Hm1 & Hm2); [lia|].
  destruct (in_range _ 1 9999 (year d) years_ok)
    as (Hy1 & Hy2 & _); [lia|].
  unfold strptime, Main.portal_format.
  do 2 change ("/" +:+ ?x) with (String "/" x).
  rewrite (split_on_field _ _ _ Hd1).
  rewrite (split_on_field _ _ _ Hm1).
  rewrite Hy1, Hd2, Hm2, Hy2.
  destruct d as [y m dd]. simpl in *. by rewrite Hvalid.
Qed.

End DatetimeFacts.

(** X1.  A date that is printed the way [is_slot_confirmed] prints it
    (["%d/%b/%Y"]) is read back as the same date by [strptime] with that
    format, for every date of the years 1000 to 9999. *)
Theorem portal_format_round_trip d :
  Datetime.valid d = true ->
  1000 <= Datetime.year d ->
  Datetime.strptime (Main.portal_format d) = Some d.
Proof. intros Hvalid _. by apply DatetimeFacts.printed_is_parsed. Qed.

Lemma portal_format_round_trip_witness :
  Datetime.strptime (Main.portal_format Scenario.jan1) = Some Scenario.jan1.
Proof. apply portal_format_round_trip; [reflexivity|simpl; lia]. Defined.

(** X2.  The key of the filter tells days apart: two slots whose dates
    parse are filed under the same ["%Y-%m-%d"] key if and only if they
    parse to the same date, however the dates are spelled. *)
Theorem same_key_same_day s1 s2 d1 d2 :
  Datetime.strptime (date s1) = Some d1 ->
  Datetime.strptime (date s2) = Some d2 ->
  Filter.date_str_of s1 = Filter.date_str_of s2 <-> d1 = d2.
Proof.
  intros H1 H2. unfold Filter.date_str_of. rewrite H1, H2. simpl.
  split; [|by intros ->]. intros [= Hiso].
  pose proof (DatetimeFacts.strptime_valid _ _ H1) as Hv1.
  pose proof (DatetimeFacts.strptime_valid _ _ H2) as Hv2.
  destruct (DatetimeFacts.valid_ranges d1 Hv1) as (Hy1 & Hm1 & Hd1).
  destruct (DatetimeFacts.valid_ranges d2 Hv2) as (Hy2 & Hm2 & Hd2).
  pose proof (fun n H => DatetimeFacts.in_range _ 1 31 n DatetimeFacts.days_ok H)
    as Hday.
  pose proof (fun n H => DatetimeFacts.in_range _ 1 9999 n DatetimeFacts.years_ok H)
    as Hyear.
  destruct (Hyear (Datetime.year d1)) as (_ & Hp1 & Hl1); [lia|].
  destruct (Hyear (Datetime.year d2)) as (_ & Hp2 & Hl2); [lia|].
  destruct (Hday (Datetime.month d1)) as (_ & Hpm1 & Hlm1); [lia|].
  destruct (Hday (Datetime.month d2)) as (_ & Hpm2 & Hlm2); [lia|].
  destruct (Hday (Datetime.day d1)) as (_ & Hpd1 & _); [lia|].
  destruct (Hday (Datetime.day d2)) as (_ & Hpd2 & _); [lia|].
  unfold Datetime.isoformat in Hiso.
  apply DatetimeFacts.append_inj_length in Hiso as [Hy Hiso]; [|congruence].
  change ("-" +:+ ?x) with (String "-" x) in Hiso. injection Hiso as Hiso.
  apply DatetimeFacts.append_inj_length in Hiso as [Hm Hiso]; [|congruence].
  change ("-" +:+ ?x) with (String "-" x) in Hiso. injection Hiso as Hd.
  destruct d1 as [y1 m1 dd1], d2 as [y2 m2 dd2]; simpl in *.
  f_equal; congruence.
Qed.

(** "1/jan/2025" and "01/Jan/2025" are one day. *)
Lemma same_key_same_day_witness :
  Filter.date_str_of (mkslot "1/jan/2025" "Wed" 1 "available" "a")
  = Filter.date_str_of (Scenario.wed 3).
Proof.
  apply (same_key_same_day _ _ Scenario.jan1 Scenario.jan1); reflexivity.
Defined.

(** * The filter as a whole *)

Module RulesFacts.

Import Filter.

(** The state after a slot is kept, with its message if it has one. *)
Lemma body_passes L st s d :
  Datetime.strptime (date s) = Some d ->
  one_slot_per_day L && bool_decide (Datetime.isoformat d ∈ dates_with_a_found_slot st)
    = false ->
  body L st s =
    if Rules.passes L s
    then inr (keep (match Rules.notice L s with
                    | Some msg => notify st (text msg)
                    | None => st
                    end) s (Datetime.isoformat d))
    else inr st.
Proof.
  intros Hd Hc. rewrite (FilterFacts.body_uncapped L st s d Hd Hc).
  unfold Rules.passes, Rules.notice. rewrite Hd. cbv zeta.
  destruct (booked_slots L !! Datetime.isoformat d) as [b|]; [done|].
  destruct (included_dates_sessions L !! Datetime.isoformat d) as [ss|]; [done|].
  destruct (bool_decide (Datetime.isoformat d ∈ excluded_dates L)); [done|].
  generalize (default ∅ (allowed_sessions L
                           !! Text.upper (Text.prefix 3 (dayname s)))).
  intros a. change (negb false) with true. rewrite andb_true_l.
  destruct (decide (a = ∅)) as [->|Hsome].
  - rewrite bool_decide_eq_true_2 by done.
    rewrite (bool_decide_eq_false_2 (session s ∈ ∅)) by set_solver. done.
  - rewrite (bool_decide_eq_false_2 _ Hsome). rewrite orb_false_l.
    destruct (bool_decide (session s ∈ a)); reflexivity.
Qed.

Lemma notice_silent L s msg :
  Rules.notice L s = Some msg -> msg = mkmessage (text msg) true.
Proof.
  unfold Rules.notice. intros H.
  repeat match type of H with
         | match ?x with _ => _ end = Some _ => destruct x; try discriminate
         end.
  by injection H as <-.
Qed.

(** The loop from any state: what it adds to the slots kept and to the
    messages sent. *)
Lemma loop_kept L slots st st' :
  loop L st slots = (None, st') ->
  let more :=
    if one_slot_per_day L
    then Rules.first_per_date (dates_with_a_found_slot st)
           (base.filter (fun s => Rules.passes L s = true) slots)
    else base.filter (fun s => Rules.passes L s = true) slots in
  filtered st' = filtered st ++ more
  /\ sent st' = sent st ++ omap (Rules.notice L) more.
Proof.
  revert st. induction slots as [|s slots IH]; intros st Hloop; cbv zeta.
  { cbn in Hloop. injection Hloop as <-. rewrite filter_nil. cbn.
    destruct (one_slot_per_day L); cbn; by rewrite !app_nil_r. }
  cbn [loop] in Hloop. destruct (body L st s) as [x|st1] eqn:Hbody; [done|].
  specialize (IH st1 Hloop). cbv zeta in IH.
  destruct (Datetime.strptime (date s)) as [d|] eqn:Hd;
    [|unfold body in Hbody; by rewrite Hd in Hbody].
  assert (Hkey : date_str_of s = Some (Datetime.isoformat d)).
  { unfold date_str_of. by rewrite Hd. }
  rewrite filter_cons.
  destruct (one_slot_per_day L
            && bool_decide (Datetime.isoformat d ∈ dates_with_a_found_slot st))
    eqn:Hcap.
  - rewrite (FilterFacts.body_capped L st s d Hd Hcap) in Hbody.
    injection Hbody as <-.
    apply andb_true_iff in Hcap as [Hone Hseen]. rewrite Hone in IH |- *.
    destruct (decide (Rules.passes L s = true)); [|done].
    cbn [Rules.first_per_date]. by rewrite Hkey, Hseen.
  - rewrite (body_passes L st s d Hd Hcap) in Hbody.
    destruct (Rules.passes L s) eqn:Hpass.
    2:{ injection Hbody as <-. by destruct (decide (false = true)). }
    injection Hbody as <-.
    destruct (decide (true = true)); [|done].
    assert (Hmore : (if one_slot_per_day L
                     then Rules.first_per_date (dates_with_a_found_slot st)
                            (s :: base.filter (fun s0 => Rules.passes L s0 = true) slots)
                     else s :: base.filter (fun s0 => Rules.passes L s0 = true) slots)
                    = s :: (if one_slot_per_day L
                            then Rules.first_per_date
                                   (dates_with_a_found_slot st ∪ {[Datetime.isoformat d]})
                                   (base.filter (fun s0 => Rules.passes L s0 = true) slots)
                            else base.filter (fun s0 => Rules.passes L s0 = true) slots)).
    { destruct (one_slot_per_day L); [|done]. cbn [Rules.first_per_date].
      rewrite Hkey. cbn [andb] in Hcap. by rewrite Hcap. }
    rewrite Hmore. cbn [omap].
    destruct IH as [IHf IHs]. rewrite IHf, IHs.
    destruct (Rules.notice L s) as [msg|] eqn:Hnotice.
    + pose proof (notice_silent L s msg Hnotice) as Hsilent.
      destruct msg as [t b]. cbn in Hsilent. injection Hsilent as ->.
      cbn. rewrite Hnotice. unfold send. rewrite <- !app_assoc.
      split; reflexivity.
    + cbn. rewrite Hnotice, <- !app_assoc. split; reflexivity.
Qed.

End RulesFacts.

Module KeptFacts.



(** A call that returns has kept the slots of [Rules.kept], with their
    messages. *)
Lemma returned_kept slots cfg bk f m :
  Filter.filter_practical_slots slots cfg bk = (inr f, m) ->
  f = Rules.kept (Filter.extract cfg bk) slots
  /\ m = omap (Rules.notice (Filter.extract cfg bk)) f.
Proof.
  intros Hcall.
  destruct (FilterFacts.returned _ _ _ _ _ Hcall) as (st & Hloop & <- & <-).
  destruct (RulesFacts.loop_kept _ _ _ _ Hloop) as [Hf Hs].
  cbn in Hf, Hs. unfold Rules.kept. by rewrite Hs, Hf.
Qed.

End KeptFacts.



(** X4.  On slots whose dates all parse, the filter returns exactly the
    slots that pass rules 2 to 5, in their order, and of these the first of
    each date when one_slot_per_day is on; and it sends exactly the upgrade
    messages of the returned slots that lie on booked dates, in that
    order. *)
Theorem filter_is_rule_chain slots cfg bk :
  Forall (fun s => is_Some (Datetime.strptime (date s))) slots ->
  Filter.filter_practical_slots slots cfg bk
  = (inr (Rules.kept (Filter.extract cfg bk) slots),
     omap (Rules.notice (Filter.extract cfg bk))
       (Rules.kept (Filter.extract cfg bk) slots)).
Proof.
  intros Hall.
  destruct (FilterFacts.loop_total (Filter.extract cfg bk) slots Filter.initial Hall)
    as [st Hloop].
  assert (Hcall : Filter.filter_practical_slots slots cfg bk
                  = (inr (Filter.filtered st), Filter.sent st)).
  { unfold Filter.filter_practical_slots. by rewrite Hloop. }
  destruct (KeptFacts.returned_kept _ _ _ _ _ Hcall) as [Hf Hm].
  by rewrite Hcall, Hm, Hf.
Qed.

Lemma filter_is_rule_chain_witness :
  Filter.filter_practical_slots [Scenario.wed 1; Scenario.wed 3; Scenario.thu 3]
    Scenario.one_a_day (Scenario.booked_at 5)
  = (inr (Rules.kept (Filter.extract Scenario.one_a_day (Scenario.booked_at 5))
            [Scenario.wed 1; Scenario.wed 3; Scenario.thu 3]),
     omap (Rules.notice (Filter.extract Scenario.one_a_day (Scenario.booked_at 5)))
       (Rules.kept (Filter.extract Scenario.one_a_day (Scenario.booked_at 5))
          [Scenario.wed 1; Scenario.wed 3; Scenario.thu 3])).
Proof.
  apply filter_is_rule_chain. repeat constructor; vm_compute; eauto.
Defined.

(** X5.  The filter raises at the first slot whose date does not parse: the
    messages of the slots before it have been sent, no slot is returned, and
    the slots after it are not looked at. *)
Theorem filter_raises_at_first_bad_date pre s post cfg bk f0 m0 :
  Filter.filter_practical_slots pre cfg bk = (inr f0, m0) ->
  Datetime.strptime (date s) = None ->
  Filter.filter_practical_slots (pre ++ s :: post) cfg bk
  = (inl (ValueError "time data does not match format"), m0).
Proof.
  intros Hpre Hbad.
  destruct (FilterFacts.returned _ _ _ _ _ Hpre) as (st & Hloop & _ & <-).
  unfold Filter.filter_practical_slots.
  rewrite FilterFacts.loop_app, Hloop. cbn. unfold Filter.body. by rewrite Hbad.
Qed.

(** An upgrade is announced, and then the batch fails. *)
Lemma filter_raises_at_first_bad_date_witness :
  Filter.filter_practical_slots [Scenario.wed 3; Scenario.garbled; Scenario.thu 3]
    Scenario.base (Scenario.booked_at 5)
  = (inl (ValueError "time data does not match format"),
     [Scenario.upgrade_notice 3 5]).
Proof.
  apply (filter_raises_at_first_bad_date [Scenario.wed 3] Scenario.garbled
           [Scenario.thu 3] Scenario.base (Scenario.booked_at 5) [Scenario.wed 3]).
  - vm_compute. reflexivity.
  - vm_compute. reflexivity.
Defined.

(** * The dashboard *)

(** X6.  [is_slot_confirmed], for a target date that parses and bookings
    with dates that [datetime] can hold: it queries the dashboard once, and
    it answers true if and only if the target is spelled the way the
    dashboard dates are printed (two-digit day, capitalised month) and the
    dashboard has a booking of that date and session.  A date spelled in
    another way is never found confirmed. *)
Theorem is_slot_confirmed_iff {W : Type} `{!Outside W} (e : Main.env)
    target target_session bookings w d :
  get_all_manual_bookings (Main.world e) = (bookings, w) ->
  Forall (fun b => Datetime.valid (booking_date b) = true) bookings ->
  Datetime.strptime target = Some d ->
  exists answer,
    Main.is_slot_confirmed target target_session e
    = (inr answer, Main.mkenv w (Main.rng e) (Main.trace e))
    /\ (answer = true <->
        target = Main.portal_format d
        /\ exists b, b ∈ bookings /\ booking_date b = d
                     /\ booking_session b = target_session).
Proof.
  intros Hdash Hvalid Hd. unfold Main.is_slot_confirmed. MainFacts.run.
  rewrite Hdash. eexists. split; [reflexivity|].
  rewrite existsb_exists. split.
  - intros (b & Hin & Hb). apply andb_true_iff in Hb as [Hdate Hsession].
    apply String.eqb_eq in Hdate. apply Z.eqb_eq in Hsession.
    apply list_elem_of_In in Hin.
    rewrite Forall_forall in Hvalid. pose proof (Hvalid b Hin) as Hv.
    pose proof (DatetimeFacts.printed_is_parsed _ Hv) as Hround.
    rewrite Hdate, Hd in Hround. injection Hround as ->.
    split; [done|]. by exists b.
  - intros (-> & b & Hin & <- & <-). exists b.
    rewrite <- list_elem_of_In. split; [done|].
    by rewrite String.eqb_refl, Z.eqb_refl.
Qed.

(** The booked slot is found under "01/Jan/2025", not under
    "1/Jan/2025". *)
Lemma is_slot_confirmed_iff_witness :
  exists answer,
    Main.is_slot_confirmed "1/Jan/2025" 3
      (Script.boot (Script.mk [] [] [] [] [Scenario.booked_at 3] 0))
    = (inr answer, Script.boot (Script.mk [] [] [] [] [] 0))
    /\ (answer = true <->
        "1/Jan/2025" = Main.portal_format Scenario.jan1
        /\ exists b, b ∈ Scenario.booked_at 3 /\ booking_date b = Scenario.jan1
                     /\ booking_session b = 3).
Proof.
  refine (is_slot_confirmed_iff
            (Script.boot (Script.mk [] [] [] [] [Scenario.booked_at 3] 0))
            "1/Jan/2025" 3 (Scenario.booked_at 3) _ Scenario.jan1 _ _ _).
  - reflexivity.
  - repeat constructor.
  - reflexivity.
Defined.

Module DashboardFacts.

Import Dashboard.

Section Rows.

Variable int : string -> option Z.

Lemma rows_loop_acc course acc rows :
  rows_loop int course acc rows = acc ++ rows_loop int course [] rows.
Proof.
  revert acc. induction rows as [|r rows IH]; intros acc; cbn.
  - by rewrite app_nil_r.
  - destruct (negb (String.eqb (r_course r) course)); [apply IH|].
    destruct (parse_row int r) as [b|]; [|apply IH].
    rewrite (IH (acc ++ [b])), (IH [b]). by rewrite <- app_assoc.
Qed.

Lemma bookings_of_rows_cons course r rows :
  bookings_of_rows int course (r :: rows)
  = (if negb (String.eqb (r_course r) course) then []
     else match parse_row int r with Some b => [b] | None => [] end)
    ++ bookings_of_rows int course rows.
Proof.
  unfold bookings_of_rows. cbn.
  destruct (negb (String.eqb (r_course r) course)); [done|].
  destruct (parse_row int r) as [b|]; [|done]. by rewrite rows_loop_acc.
Qed.

Lemma bookings_of_rows_app course rows1 rows2 :
  bookings_of_rows int course (rows1 ++ rows2)
  = bookings_of_rows int course rows1 ++ bookings_of_rows int course rows2.
Proof.
  induction rows1 as [|r rows1 IH]; [done|].
  cbn [app]. by rewrite !bookings_of_rows_cons, IH, app_assoc.
Qed.

End Rows.

End DashboardFacts.

(** X7.  The loop over the rows of the dashboard drops a row of another
    course and a row whose date or session does not parse, and then the
    result is that of the rows without it; a row of the course that parses
    adds its booking between the bookings of the rows before it and after
    it; and every booking has a date that [datetime] can hold. *)
Theorem dashboard_rows_are_independent (int : string -> option Z) course pre r post :
  (~ Dashboard.well_formed int course r ->
     Dashboard.bookings_of_rows int course (pre ++ r :: post)
     = Dashboard.bookings_of_rows int course (pre ++ post))
  /\ (forall b,
        Dashboard.r_course r = course -> Dashboard.parse_row int r = Some b ->
        Dashboard.bookings_of_rows int course (pre ++ r :: post)
        = Dashboard.bookings_of_rows int course pre ++ [b]
          ++ Dashboard.bookings_of_rows int course post)
  /\ Forall (fun b => Datetime.valid (booking_date b) = true)
       (Dashboard.bookings_of_rows int course (pre ++ r :: post)).
Proof.
  split; [|split].
  - intros Hbad.
    rewrite !DashboardFacts.bookings_of_rows_app, DashboardFacts.bookings_of_rows_cons.
    destruct (String.eqb (Dashboard.r_course r) course) eqn:Hcourse; [|done].
    apply String.eqb_eq in Hcourse. cbn [negb].
    destruct (Dashboard.parse_row int r) as [b|] eqn:Hrow; [|done].
    destruct Hbad. split; [done|]. by rewrite Hrow.
  - intros b Hcourse Hrow.
    rewrite DashboardFacts.bookings_of_rows_app, DashboardFacts.bookings_of_rows_cons.
    apply String.eqb_eq in Hcourse. by rewrite Hcourse, Hrow.
  - generalize (pre ++ r :: post). intros rows.
    induction rows as [|r0 rows IH]; [constructor|].
    rewrite DashboardFacts.bookings_of_rows_cons. apply Forall_app. split; [|done].
    destruct (negb _); [constructor|].
    destruct (Dashboard.parse_row int r0) as [b|] eqn:Hrow; [|constructor].
    constructor; [|constructor].
    unfold Dashboard.parse_row in Hrow.
    destruct (Datetime.strptime (Dashboard.r_date r0)) as [d|] eqn:Hd; [|done].
    destruct (int (Dashboard.r_session r0)); [|done].
    injection Hrow as <-. cbn. by eapply DatetimeFacts.strptime_valid.
Qed.

(** A row with a garbled date between two good rows. *)
Lemma dashboard_rows_are_independent_witness :
  Dashboard.bookings_of_rows Dashboard.int_of_digits "Class 3A"
    ([Dashboard.mkrow "01/Jan/2025" "5" "Class 3A"]
     ++ Dashboard.mkrow "Loading..." "3" "Class 3A"
        :: [Dashboard.mkrow "02/Jan/2025" "4" "Class 3A"])
  = Dashboard.bookings_of_rows Dashboard.int_of_digits "Class 3A"
      ([Dashboard.mkrow "01/Jan/2025" "5" "Class 3A"]
       ++ [Dashboard.mkrow "02/Jan/2025" "4" "Class 3A"]).
Proof.
  apply (proj1 (dashboard_rows_are_independent Dashboard.int_of_digits "Class 3A"
                  [Dashboard.mkrow "01/Jan/2025" "5" "Class 3A"]
                  (Dashboard.mkrow "Loading..." "3" "Class 3A")
                  [Dashboard.mkrow "02/Jan/2025" "4" "Class 3A"])).
  intros [_ [b Hb]]. vm_compute in Hb. discriminate Hb.
Defined.

(** * More on the refresh mode *)

Module SchedulerFacts.

Import RefreshMode.

Lemma randint_upper a b g n g' :
  Random.randint a b g = inr (n, g') -> a <= n <= b.
Proof.
  unfold Random.randint. destruct (b - a + 1 <=? 0) eqn:Hw; [done|].
  intros [= <- _]. pose proof (Z.mod_pos_bound (Random.raw g) (b - a + 1)). lia.
Qed.

(** The settings of a scheduler never change, and its count of aggressive
    cycles stays within the range it is drawn from. *)
Lemma step_bounded self self' pd range :
  step self self' ->
  probe_duration self = pd /\ aggro_range self = range
  /\ aggressive_cycles self <= Z.max 0 (snd range) ->
  probe_duration self' = pd /\ aggro_range self' = range
  /\ aggressive_cycles self' <= Z.max 0 (snd range).
Proof.
  intros Hstep (Hpd & Hrange & Hbound).
  destruct Hstep as [self sf ff now g r self' g' Hop|self now].
  - destruct (RefreshModeFacts.on_slot_detected_cases _ _ _ _ _ _ _ _ Hop)
      as [(_ & _ & self1 & Htr & ->)|[(_ & _ & _ & _ & _ & -> & _)|(_ & _ & -> & _)]];
      [|done..].
    destruct (RefreshModeFacts.trigger_cases _ _ _ _ Htr) as [(_ & Hr & ->)|(_ & -> & _)];
      [|done].
    cbn. repeat split; try done.
    apply randint_upper in Hr. rewrite Hrange in Hr. lia.
  - rewrite RefreshModeFacts.tick_cycles, RefreshModeFacts.tick_range.
    split; [|split; [done|]].
    + unfold tick.
      destruct (0 <? aggressive_cycles self); cbn [probe_mode probe_start
        probe_duration set_aggressive_cycles];
        destruct (probe_mode self); try done;
        destruct (probe_start self); try done;
        by destruct (negb _).
    + destruct (0 <? aggressive_cycles self) eqn:?; lia.
Qed.

End SchedulerFacts.

(** X8.  Aggressive cycles decay with the ticks: after the ticks at the
    times [nows], a count that is not negative has gone down by their number
    and stopped at 0, whatever the times are; so the scheduler is aggressive
    after them if and only if fewer ticks than the count have passed. *)
Theorem ticks_decay self nows :
  0 <= RefreshMode.aggressive_cycles self ->
  RefreshMode.aggressive_cycles (ticks self nows)
  = Z.max 0 (RefreshMode.aggressive_cycles self - Z.of_nat (length nows))
  /\ (RefreshMode.in_aggressive (ticks self nows) = true
      <-> Z.of_nat (length nows) < RefreshMode.aggressive_cycles self).
Proof.
  intros Hnonneg.
  assert (Hcount : RefreshMode.aggressive_cycles (ticks self nows)
                   = Z.max 0 (RefreshMode.aggressive_cycles self
                              - Z.of_nat (length nows))).
  { revert self Hnonneg. induction nows as [|now nows IH]; intros self Hnonneg.
    - cbn. lia.
    - cbn [ticks length]. rewrite IH; rewrite RefreshModeFacts.tick_cycles;
        destruct (0 <? RefreshMode.aggressive_cycles self) eqn:?; lia. }
  split; [exact Hcount|].
  unfold RefreshMode.in_aggressive. rewrite Hcount, Z.ltb_lt. lia.
Qed.

Lemma ticks_decay_witness :
  RefreshMode.aggressive_cycles
    (ticks (RefreshMode.set_aggressive_cycles RefreshMode.default 6)
       [1%Q; 2%Q; 3%Q; 4%Q; 5%Q; 6%Q; 7%Q])
  = Z.max 0 (6 - 7).
Proof.
  refine (proj1 (ticks_decay (RefreshMode.set_aggressive_cycles RefreshMode.default 6)
                   [1%Q; 2%Q; 3%Q; 4%Q; 5%Q; 6%Q; 7%Q] _)).
  simpl. lia.
Defined.

(** X9.  Whatever operations are called on a scheduler after its
    construction, its probe duration and its range of aggressive cycles stay
    as constructed, and its count of aggressive cycles never exceeds the
    upper end of the range (or 0, for a range below 0): a burst cannot last
    longer than that many ticks. *)
Theorem burst_is_bounded probe_duration aggro_range self :
  RefreshMode.reachable (RefreshMode.init probe_duration aggro_range) self ->
  RefreshMode.probe_duration self = probe_duration
  /\ RefreshMode.aggro_range self = aggro_range
  /\ RefreshMode.aggressive_cycles self <= Z.max 0 (snd aggro_range).
Proof.
  induction 1 as [|self self' _ IH Hstep].
  - cbn. repeat split; try done. lia.
  - by eapply SchedulerFacts.step_bounded.
Qed.

Lemma burst_is_bounded_witness :
  RefreshMode.aggressive_cycles
    (RefreshMode.set_probe
       (RefreshMode.set_aggressive_cycles RefreshMode.default 6) false None)
  <= Z.max 0 8.
Proof.
  refine (proj2 (proj2 (burst_is_bounded 10%Q (6, 8) _ _))).
  eapply RefreshMode.reachable_step; [apply RefreshMode.reachable_init|].
  eapply (RefreshMode.step_on_slot_detected _ true true 0%Q Script.counting).
  vm_compute. reflexivity.
Defined.

(** X10.  Without a filtered match, [on_slot_detected] changes nothing and
    returns "none" when the scheduler is probing already, when it is
    aggressive, or when no slots were found; in particular a probe that is
    running is not started again and keeps its start time. *)
Theorem no_match_changes_nothing self slots_found now g :
  RefreshMode.probe_mode self = true
  \/ RefreshMode.in_aggressive self = true
  \/ slots_found = false ->
  RefreshMode.on_slot_detected self slots_found false now g = inr ("none", self, g).
Proof.
  unfold RefreshMode.on_slot_detected.
  intros [Hp|[Ha| ->]]; rewrite ?Hp, ?Ha; [| |done].
  - by destruct (slots_found && negb (RefreshMode.in_aggressive self)).
  - by rewrite andb_false_r.
Qed.

Lemma no_match_changes_nothing_witness :
  RefreshMode.on_slot_detected
    (RefreshMode.set_probe RefreshMode.default true (Some 100%Q)) true false 105
    Script.counting
  = inr ("none", RefreshMode.set_probe RefreshMode.default true (Some 100%Q),
         Script.counting).
Proof. apply no_match_changes_nothing. left. reflexivity. Defined.

(** X11.  [tick] keeps a probe that has not lasted longer than the probe
    duration, the case of equality included: the flag and the start time
    stay as they are. *)
Theorem tick_keeps_running_probe self now start :
  RefreshMode.probe_mode self = true ->
  RefreshMode.probe_start self = Some start ->
  (now - start <= RefreshMode.probe_duration self)%Q ->
  RefreshMode.probe_mode (RefreshMode.tick self now) = true
  /\ RefreshMode.probe_start (RefreshMode.tick self now) = Some start.
Proof.
  intros Hp Hs Hle. apply Qle_bool_iff in Hle.
  unfold RefreshMode.tick.
  destruct (0 <? RefreshMode.aggressive_cycles self);
    cbn [RefreshMode.probe_mode RefreshMode.probe_start RefreshMode.probe_duration
         RefreshMode.set_aggressive_cycles];
    rewrite Hp, Hs, Hle; cbn; by rewrite Hp, Hs.
Qed.

(** Ten seconds after the start, a probe of ten seconds is still on. *)
Lemma tick_keeps_running_probe_witness :
  RefreshMode.probe_mode
    (RefreshMode.tick (RefreshMode.set_probe RefreshMode.default true (Some 100%Q))
       110)
  = true.
Proof.
  refine (proj1 (tick_keeps_running_probe
                   (RefreshMode.set_probe RefreshMode.default true (Some 100%Q))
                   110%Q 100%Q _ _ _)).
  - reflexivity.
  - reflexivity.
  - vm_compute. discriminate.
Defined.

(** * The cadence *)

Module CadenceFacts.

Lemma unit_draw g :
  (0 <= fst (Random.random g))%Q /\ (fst (Random.random g) < 1)%Q.
Proof.
  unfold Random.random, Random.raw. cbn [fst].
  pose proof (Z.mod_pos_bound (Random.source g (Random.position g)) (2 ^ 53)
                ltac:(lia)) as Hraw.
  unfold Qle, Qlt. cbn [Qnum Qden].
  change (Z.pos (2 ^ 53)) with (2 ^ 53). lia.
Qed.

Lemma uniform_bounds a b g :
  (a < b)%Q ->
  (a <= fst (Random.uniform a b g))%Q /\ (fst (Random.uniform a b g) <= b)%Q
  /\ snd (Random.uniform a b g) = Random.advance g.
Proof.
  intros Hab. destruct (unit_draw g) as [H0 H1].
  unfold Random.uniform.
  destruct (Random.random g) as [u g'] eqn:Hr. cbn [fst snd] in *.
  assert (Hpos : (0 < b - a)%Q).
  { unfold Qminus. by rewrite <- Qlt_minus_iff. }
  split; [|split].
  - rewrite <- (Qplus_0_r a) at 1. apply Qplus_le_r.
    apply Qmult_le_0_compat; [by apply Qlt_le_weak|done].
  - apply Qlt_le_weak.
    assert (Hb : (b == a + (b - a) * 1)%Q) by ring.
    rewrite Hb at 2. apply Qplus_lt_r. by apply Qmult_lt_l.
  - unfold Random.random in Hr. by injection Hr as _ <-.
Qed.

End CadenceFacts.

(** X12.  The base delay of [sleep_random] lies in the interval of the
    mode: from 2 to 4 seconds when aggressive cycles are left, else from 5
    to 9 seconds when probing, else from 13 to 40 seconds, both ends
    included; the delay that is slept is the base delay times the backoff
    multiplier; and one draw is taken from the generator. *)
Theorem sleep_random_cadence rm b g :
  let delay := fst (base_delay rm g) in
  match RefreshMode.mode_of rm with
  | RefreshMode.Aggressive => (2 <= delay)%Q /\ (delay <= 4)%Q
  | RefreshMode.Probe => (5 <= delay)%Q /\ (delay <= 9)%Q
  | RefreshMode.Normal => (13 <= delay)%Q /\ (delay <= 40)%Q
  end
  /\ sleep_random rm b g = ((delay * b)%Q, Random.advance g).
Proof.
  cbv zeta. rewrite MainFacts.sleep_random_scales.
  unfold base_delay, RefreshMode.mode_of.
  destruct (RefreshMode.in_aggressive rm); [|destruct (RefreshMode.in_probe rm)].
  - destruct (CadenceFacts.uniform_bounds 2 4 g) as (? & ? & ->); done.
  - destruct (CadenceFacts.uniform_bounds 5 9 g) as (? & ? & ->); done.
  - destruct (CadenceFacts.uniform_bounds 13 40 g) as (? & ? & ->); done.
Qed.

(** * Whole runs of the loop *)

Module RunFacts.

Import Main.

Ltac monad := unfold mbind, M_bind, mret, M_ret.

Section Rules.

Context {W : Type} `{!Outside W}.
Variable P : event -> Prop.

Lemma yields_ret {A} (Q : A -> Prop) (a : A) : Q a -> yields P Q (@ret W A a).
Proof.
  intros HQ e. exists [], (inr a), e. rewrite app_nil_r.
  repeat split; try done. by intros ? [= <-].
Qed.

Lemma yields_bind {A B} (Q : A -> Prop) (Q' : B -> Prop) (m : @M W A) k :
  yields P Q m -> (forall a, Q a -> yields P Q' (k a)) -> yields P Q' (bind m k).
Proof.
  intros Hm Hk e. destruct (Hm e) as (tr1 & r1 & e1 & Hrun1 & Htr1 & HP1 & HQ1).
  unfold bind. rewrite Hrun1. destruct r1 as [x|a].
  - exists tr1, (inl x), e1. repeat split; try done.
  - destruct (Hk a (HQ1 a eq_refl) e1) as (tr2 & r2 & e2 & Hrun2 & Htr2 & HP2 & HQ2).
    exists (tr1 ++ tr2), r2, e2. rewrite Htr2, Htr1, <- app_assoc, Forall_app.
    done.
Qed.

Lemma yields_weaken {A} (Q Q' : A -> Prop) (m : @M W A) :
  (forall a, Q a -> Q' a) -> yields P Q m -> yields P Q' m.
Proof.
  intros HQ Hm e. destruct (Hm e) as (tr & r & e' & Hrun & Htr & HP & Hr).
  exists tr, r, e'. repeat split; auto.
Qed.

Lemma yields_emit ev : P ev -> yields P (fun _ => True) (@emit W ev).
Proof.
  intros HP e. eexists [ev], _, _. split; [reflexivity|].
  repeat split; auto.
Qed.

Lemma yields_call {A} (f : W -> A * W) : yields P (fun _ => True) (call f).
Proof.
  intros e. unfold call. destruct (f (world e)) as [a w].
  eexists [], _, _. split; [reflexivity|]. cbn. rewrite app_nil_r. auto.
Qed.

Lemma yields_call_exn {A} (f : W -> (exn + A) * W) :
  yields P (fun _ => True) (call_exn f).
Proof.
  intros e. unfold call_exn. destruct (f (world e)) as [a w].
  eexists [], _, _. split; [reflexivity|]. cbn. rewrite app_nil_r. auto.
Qed.

End Rules.

(** A property [P] of events and a property [I] of the variables that the
    parts of a cycle keep, from what they need of [P] and [I]. *)
Section Invariant.

Context {W : Type} `{!Outside W}.
Variable cfg : config.
Variable P : event -> Prop.
Variable I : vars -> Prop.

Hypothesis P_sent : forall m, P (Sent m).
Hypothesis P_slept : forall q, P (Slept q).
Hypothesis P_command : forall c, P (Command c).
Hypothesis P_logout : P Logout.
Hypothesis P_random : forall v g,
  I v -> P (SleptRandom (fst (base_delay (refresh_mode v) g)) (backoff_multiplier v)).
Hypothesis P_reserve :
  default false (cfg_dry_run cfg) = false -> forall i r, P (Reserve i r).
Hypothesis P_confirm :
  default false (cfg_dry_run cfg) = false ->
  default false (cfg_auto_book cfg) = true -> forall ok, P (Confirm ok).
Hypothesis I_cycle : forall v, I v -> I (count_cycle v).
Hypothesis I_found : forall v, I v -> I (count_slot_found v).
Hypothesis I_mode : forall v sf ff now g r rm g',
  I v ->
  RefreshMode.on_slot_detected (refresh_mode v) sf ff now g = inr (r, rm, g') ->
  I (set_refresh_mode v rm).
Hypothesis I_bookings :
  default false (cfg_dry_run cfg) = false ->
  default false (cfg_auto_book cfg) = false ->
  forall v b l, I v -> I (set_bookings v (b :: l)).

Lemma yields_emit_sleep q : yields P (fun _ => True) (@do_sleep W _ q).
Proof.
  intros e. eexists [Slept q], _, _. split; [reflexivity|].
  repeat split; auto.
Qed.

Lemma bot_send_yields msg silent : yields P (fun _ => True) (@bot_send W msg silent).
Proof. apply yields_emit, P_sent. Qed.

Lemma end_of_cycle_yields v :
  I v -> yields P (fun c => I (vars_of c)) (end_of_cycle v).
Proof.
  intros Hv e. unfold end_of_cycle, do_sleep_random. MainFacts.run.
  destruct (sleep_random (refresh_mode v) (backoff_multiplier v) (rng e)) as [d g].
  MainFacts.run. eexists [_], _, _. split; [reflexivity|]. cbn.
  repeat split; auto. intros c [= <-]. cbn. auto.
Qed.

Lemma reserve_loop_yields auto_book filtered booked :
  (forall i r, P (Reserve i r)) ->
  (auto_book = true -> forall ok, P (Confirm ok)) ->
  yields P (fun _ => True) (reserve_loop auto_book filtered booked).
Proof.
  intros HR HC. revert booked.
  induction filtered as [|s rest IH]; intros booked; cbn [reserve_loop]; monad.
  { by apply yields_ret. }
  eapply yields_bind; [apply bot_send_yields|]. intros _ _.
  eapply yields_bind.
  { unfold do_reserve_slot. monad.
    eapply yields_bind; [apply yields_call|]. intros r _.
    eapply yields_bind; [apply yields_emit, HR|]. intros _ _.
    by apply (yields_ret P (fun _ => True)). }
  intros [result txt] _.
  destruct (String.eqb result "success").
  { eapply yields_bind; [apply bot_send_yields|]. intros _ _.
    eapply yields_bind; [|intros _ _; apply IH].
    destruct auto_book; [|by apply (yields_ret P (fun _ => True))].
    eapply yields_bind.
    { unfold do_confirm_booking. monad.
      eapply yields_bind; [apply yields_call|]. intros ok _.
      eapply yields_bind; [apply yields_emit, HC; done|]. intros _ _.
      by apply (yields_ret P (fun _ => True)). }
    intros ok _. destruct (negb ok); apply bot_send_yields. }
  destruct (String.eqb result "no_change"); [by apply yields_ret|].
  destruct (String.eqb result "alert"); [|apply IH].
  eapply yields_bind; [apply bot_send_yields|]. intros _ _. apply IH.
Qed.

Lemma confirm_loop_yields booked_slots v booked :
  (forall v b l, I v -> I (set_bookings v (b :: l))) ->
  I v ->
  yields P (fun r => I (fst r)) (confirm_loop booked_slots v booked).
Proof.
  intros HB. revert v booked.
  induction booked_slots as [|s rest IH]; intros v booked Hv;
    cbn [confirm_loop]; monad.
  { by apply yields_ret. }
  eapply yields_bind.
  { unfold is_slot_confirmed. monad.
    eapply yields_bind; [apply yields_call|]. intros bookings _.
    by apply (yields_ret P (fun _ => True)). }
  intros confirmed _. destruct confirmed.
  - eapply yields_bind; [apply bot_send_yields|]. intros _ _.
    eapply yields_bind; [apply yields_call|]. intros updated _.
    apply IH. destruct updated; [done|by apply HB].
  - eapply yields_bind; [apply bot_send_yields|]. intros _ _. by apply IH.
Qed.

Lemma dry_run_loop_yields filtered :
  yields P (fun _ => True) (@dry_run_loop W filtered).
Proof.
  induction filtered as [|s rest IH]; cbn [dry_run_loop]; monad.
  { by apply yields_ret. }
  eapply yields_bind; [apply bot_send_yields|]. intros _ _. apply IH.
Qed.

Lemma handle_command_yields cmd : yields P (fun _ => True) (handle_command cmd).
Proof.
  unfold handle_command. destruct cmd as [c|]; [|by apply yields_ret].
  destruct (String.eqb c "status"); [apply yields_emit, P_command|].
  destruct (String.eqb c "screen").
  { monad. eapply yields_bind; [apply yields_call_exn|]. intros _ _.
    apply yields_emit, P_command. }
  destruct (String.eqb c "stats"); [apply yields_emit, P_command|].
  by apply yields_ret.
Qed.

Lemma do_filter_yields all_slots bookings :
  yields P (fun _ => True) (@do_filter W cfg all_slots bookings).
Proof.
  intros e. unfold do_filter.
  destruct (Filter.filter_practical_slots all_slots cfg bookings) as [r out].
  eexists (Sent <$> out), _, _. split; [reflexivity|]. cbn.
  repeat split; auto. apply Forall_fmap, Forall_forall. intros m _. apply P_sent.
Qed.

Lemma do_on_slot_detected_yields v sf ff :
  I v ->
  yields P (fun r => I (set_refresh_mode v (snd r)))
    (do_on_slot_detected (refresh_mode v) sf ff).
Proof.
  intros Hv e. unfold do_on_slot_detected.
  destruct (RefreshMode.on_slot_detected (refresh_mode v) sf ff
              (time_time (world e)) (rng e)) as [x|[[r rm] g]] eqn:Hop.
  - exists [], (inl x), e. rewrite app_nil_r. repeat split; auto. by intros ? [=].
  - eexists [], _, _. split; [reflexivity|]. cbn. rewrite app_nil_r.
    repeat split; auto. intros a [= <-]. cbn. by eapply I_mode.
Qed.

Lemma book_yields v filtered :
  I v -> yields P (fun c => I (vars_of c)) (book cfg v filtered).
Proof.
  intros Hv. unfold book.
  destruct (default false (cfg_dry_run cfg)) eqn:Hdry; monad.
  { eapply yields_bind; [apply dry_run_loop_yields|]. intros _ _.
    by apply yields_ret. }
  destruct (default false (cfg_auto_book cfg)) eqn:Hauto.
  - eapply yields_bind; [apply reserve_loop_yields; auto|].
    intros booked_slots _. rewrite andb_false_r.
    eapply yields_bind; [by apply (yields_ret P (fun r => I (fst r)) (v, false))|].
    intros [v' booked] Hv'. cbn in Hv'.
    destruct (negb booked); [by apply end_of_cycle_yields|by apply yields_ret].
  - eapply yields_bind; [apply reserve_loop_yields; auto; done|].
    intros booked_slots _.
    eapply yields_bind with (Q := fun r => I (fst r)).
    { destruct (nonempty booked_slots && negb (false || false));
        [|by apply yields_ret].
      eapply yields_bind; [apply bot_send_yields|]. intros _ _.
      eapply yields_bind; [apply yields_emit_sleep|]. intros _ _.
      eapply yields_bind; [apply confirm_loop_yields; auto|].
      intros r Hr.
      eapply yields_bind; [apply yields_call_exn|]. intros _ _.
      by apply yields_ret. }
    intros [v' booked] Hv'. cbn in Hv'.
    destruct (negb booked); [by apply end_of_cycle_yields|by apply yields_ret].
Qed.

Lemma act_yields v all_slots :
  I v -> yields P (fun c => I (vars_of c)) (act cfg v all_slots).
Proof.
  intros Hv. unfold act.
  destruct (nonempty all_slots); [|by apply end_of_cycle_yields]. monad.
  eapply yields_bind; [apply do_filter_yields|]. intros filtered _.
  eapply yields_bind; [apply do_on_slot_detected_yields; auto|].
  intros [current_mode rm] Hrm. cbn in Hrm.
  destruct (negb (nonempty filtered));
    [by apply end_of_cycle_yields|by apply book_yields].
Qed.

Lemma cycle_yields v :
  I v -> yields P (fun c => I (vars_of c)) (cycle cfg v).
Proof.
  intros Hv. unfold cycle. monad.
  eapply yields_bind; [apply yields_call|]. intros cmd _.
  destruct (bool_decide (cmd = Some "stop")).
  - eapply yields_bind; [apply yields_call_exn|]. intros _ _.
    eapply yields_bind; [apply yields_emit, P_logout|]. intros _ _.
    eapply yields_bind; [apply bot_send_yields|]. intros _ _.
    by apply yields_ret.
  - eapply yields_bind; [apply handle_command_yields|]. intros _ _.
    eapply yields_bind; [apply yields_call_exn|]. intros all_slots _.
    by apply act_yields.
Qed.

Lemma while_true_yields fuel v :
  I v -> yields P (fun c => I (vars_of c)) (while_true cfg fuel v).
Proof.
  revert v. induction fuel as [|n IH]; intros v Hv; cbn [while_true]; monad.
  { by apply yields_ret. }
  eapply yields_bind; [by apply cycle_yields|].
  intros [v'|v'] Hv'; [by apply IH|by apply yields_ret].
Qed.

Lemma main_yields fuel :
  (forall bookings, I (start bookings)) ->
  yields P (fun c => I (vars_of c)) (main cfg fuel).
Proof.
  intros Hstart. unfold main. monad.
  eapply yields_bind; [apply yields_call|]. intros bookings _.
  eapply yields_bind; [apply yields_call_exn|]. intros _ _.
  by apply while_true_yields.
Qed.

End Invariant.

Lemma harmless_reservations tr :
  Forall harmless tr -> reservations tr = [] /\ confirmations tr = [].
Proof.
  induction 1 as [|ev tr Hev _ [IH1 IH2]]; [done|]. by destruct ev.
Qed.

Lemma unconfirming_confirmations tr :
  Forall unconfirming tr -> confirmations tr = [].
Proof. induction 1 as [|ev tr Hev _ IH]; [done|]. by destruct ev. Qed.

End RunFacts.

(** X13.  A dry run never touches a booking: with dry_run on, no run of
    [main], however long and whatever the portal and the chat do, calls
    [reserve_slot] or [confirm_booking]. *)
Theorem dry_run_never_books {W : Type} `{!Outside W} (cfg : config) fuel
    (e : Main.env) :
  default false (cfg_dry_run cfg) = true ->
  exists tr r e',
    Main.main cfg fuel e = (r, e')
    /\ Main.trace e' = Main.trace e ++ tr
    /\ reservations tr = []
    /\ confirmations tr = [].
Proof.
  intros Hdry.
  destruct (RunFacts.main_yields cfg harmless (fun _ => True)) with (fuel := fuel) (e := e)
    as (tr & r & e' & Hrun & Htr & HP & _); try done.
  - intros Hno. by rewrite Hdry in Hno.
  - intros Hno. by rewrite Hdry in Hno.
  - exists tr, r, e'. split; [done|]. split; [done|].
    by apply RunFacts.harmless_reservations.
Qed.

Lemma dry_run_never_books_witness :
  exists tr r e',
    Main.main (mkconfig None None None (Some {[ "WED" := [3] ]}) None None (Some true))
      3 (Script.boot Scenario.stale_page) = (r, e')
    /\ Main.trace e' = Main.trace (Script.boot Scenario.stale_page) ++ tr
    /\ reservations tr = []
    /\ confirmations tr = [].
Proof.
  apply (dry_run_never_books
           (mkconfig None None None (Some {[ "WED" := [3] ]}) None None (Some true))
           3 (Script.boot Scenario.stale_page)).
  reflexivity.
Defined.

(** X14.  Without auto_book, [confirm_booking] is never called: no run of
    the loop, from any variables and against any portal, confirms a
    reservation by itself. *)
Theorem confirms_only_with_auto_book {W : Type} `{!Outside W} (cfg : config)
    fuel v (e : Main.env) :
  default false (cfg_auto_book cfg) = false ->
  exists tr r e',
    Main.while_true cfg fuel v e = (r, e')
    /\ Main.trace e' = Main.trace e ++ tr
    /\ confirmations tr = [].
Proof.
  intros Hauto.
  destruct (RunFacts.while_true_yields cfg unconfirming (fun _ => True))
    with (fuel := fuel) (v := v) (e := e)
    as (tr & r & e' & Hrun & Htr & HP & _); try done.
  - intros _ Hyes. by rewrite Hauto in Hyes.
  - exists tr, r, e'. split; [done|]. split; [done|].
    by apply RunFacts.unconfirming_confirmations.
Qed.

Lemma confirms_only_with_auto_book_witness :
  exists tr r e',
    Main.while_true Scenario.wednesdays 2 (Main.start [])
      (Script.boot Scenario.stale_page) = (r, e')
    /\ Main.trace e' = Main.trace (Script.boot Scenario.stale_page) ++ tr
    /\ confirmations tr = [].
Proof.
  apply (confirms_only_with_auto_book Scenario.wednesdays 2 (Main.start [])
           (Script.boot Scenario.stale_page)).
  reflexivity.
Defined.

(** X15.  With auto_book or dry_run on, the bookings that the filter works
    with are never read again: after any number of cycles, reservations and
    confirmations included, [all_manual_bookings] is what it was when the
    loop was entered. *)
Theorem known_bookings_are_never_refreshed {W : Type} `{!Outside W}
    (cfg : config) fuel v (e : Main.env) :
  default false (cfg_dry_run cfg) || default false (cfg_auto_book cfg) = true ->
  exists r e',
    Main.while_true cfg fuel v e = (r, e')
    /\ forall c, r = inr c ->
         Main.all_manual_bookings (Main.vars_of c) = Main.all_manual_bookings v.
Proof.
  intros Hflags.
  destruct (RunFacts.while_true_yields cfg (fun _ => True)
              (fun v' => Main.all_manual_bookings v' = Main.all_manual_bookings v))
    with (fuel := fuel) (v := v) (e := e)
    as (tr & r & e' & Hrun & _ & _ & Hr); try done.
  - intros Hdry Hauto. by rewrite Hdry, Hauto in Hflags.
  - by exists r, e'.
Qed.

Lemma known_bookings_are_never_refreshed_witness :
  exists r e',
    Main.while_true
      (mkconfig None None None (Some {[ "WED" := [1; 3; 4] ]}) None (Some true) None)
      2 (Main.start []) (Script.boot Scenario.stale_page) = (r, e')
    /\ forall c, r = inr c ->
         Main.all_manual_bookings (Main.vars_of c)
         = Main.all_manual_bookings (Main.start []).
Proof.
  apply (known_bookings_are_never_refreshed
           (mkconfig None None None (Some {[ "WED" := [1; 3; 4] ]}) None (Some true) None)
           2 (Main.start []) (Script.boot Scenario.stale_page)).
  reflexivity.
Defined.

Module StickyFacts.

Import RefreshMode.

Lemma on_slot_detected_range self sf ff now g r self' g' :
  on_slot_detected self sf ff now g = inr (r, self', g') ->
  aggro_range self' = aggro_range self.
Proof.
  unfold on_slot_detected, trigger_aggressive_mode. intros Hop.
  destruct ff.
  - destruct (aggressive_cycles self <? 4).
    + destruct (Random.randint _ _ g) as [x|[n g1]]; [done|].
      by injection Hop as _ <- _.
    + by injection Hop as _ <- _.
  - destruct (sf && negb (in_aggressive self)); [destruct (negb (probe_mode self))|];
      by injection Hop as _ <- _.
Qed.

Lemma on_slot_detected_aggressive self sf ff now g r self' g' :
  on_slot_detected self sf ff now g = inr (r, self', g') ->
  0 < fst (aggro_range self) ->
  in_aggressive self = true \/ ff = true ->
  in_aggressive self' = true.
Proof.
  unfold on_slot_detected, trigger_aggressive_mode, in_aggressive.
  intros Hop Hlow Hcase.
  destruct ff.
  - destruct (aggressive_cycles self <? 4) eqn:Hfew.
    + destruct (Random.randint _ _ g) as [x|[n g1]] eqn:Hdraw; [done|].
      injection Hop as _ <- _. cbn.
      apply SchedulerFacts.randint_upper in Hdraw. lia.
    + injection Hop as _ <- _. cbn. lia.
  - destruct Hcase as [Hon|?]; [|done]. rewrite Hon in Hop.
    rewrite andb_false_r in Hop. by injection Hop as _ <- _.
Qed.

Lemma on_slot_detected_fast self sf ff now g r self' g' :
  on_slot_detected self sf ff now g = inr (r, self', g') ->
  0 < fst (aggro_range self) ->
  mode_of self <> Normal ->
  mode_of self' <> Normal.
Proof.
  intros Hop Hlow Hfast. unfold mode_of in *.
  destruct (in_aggressive self) eqn:Hon.
  { by rewrite (on_slot_detected_aggressive _ _ _ _ _ _ _ _ Hop Hlow (or_introl Hon)). }
  destruct ff.
  { by rewrite (on_slot_detected_aggressive _ _ _ _ _ _ _ _ Hop Hlow (or_intror eq_refl)). }
  unfold on_slot_detected in Hop. rewrite Hon in Hop.
  destruct (in_probe self) eqn:Hprobe; [|done].
  unfold in_probe in *. rewrite Hprobe in Hop.
  destruct (sf && negb false); injection Hop as _ <- _;
    by rewrite Hon; unfold in_probe; rewrite Hprobe.
Qed.

Lemma fast_base_delay rm g :
  mode_of rm <> Normal ->
  (2 <= fst (base_delay rm g))%Q /\ (fst (base_delay rm g) <= 9)%Q.
Proof.
  unfold mode_of, base_delay. intros Hfast.
  destruct (in_aggressive rm); [|destruct (in_probe rm); [|done]].
  - destruct (CadenceFacts.uniform_bounds 2 4 g) as (Hlo & Hhi & _); [done|].
    split; [done|]. eapply Qle_trans; [exact Hhi|done].
  - destruct (CadenceFacts.uniform_bounds 5 9 g) as (Hlo & Hhi & _); [done|].
    split; [|done]. eapply Qle_trans; [|exact Hlo]. done.
Qed.

End StickyFacts.

(** X16.  The loop never calls [tick], so an aggressive burst does not end:
    from variables whose scheduler is aggressive (with a range that starts
    above 0), whatever the portal shows in the cycles that follow, the
    scheduler is aggressive after them and every random sleep has a base
    delay from 2 to 4 seconds, both ends included. *)
Theorem aggressive_burst_never_ends {W : Type} `{!Outside W} (cfg : config)
    fuel v (e : Main.env) :
  RefreshMode.in_aggressive (Main.refresh_mode v) = true ->
  0 < fst (RefreshMode.aggro_range (Main.refresh_mode v)) ->
  exists tr r e',
    Main.while_true cfg fuel v e = (r, e')
    /\ Main.trace e' = Main.trace e ++ tr
    /\ Forall aggressive_sleep tr
    /\ forall c, r = inr c ->
         RefreshMode.in_aggressive (Main.refresh_mode (Main.vars_of c)) = true.
Proof.
  intros Hon Hlow.
  destruct (RunFacts.while_true_yields cfg aggressive_sleep
              (fun v' => RefreshMode.in_aggressive (Main.refresh_mode v') = true
                         /\ 0 < fst (RefreshMode.aggro_range (Main.refresh_mode v'))))
    with (fuel := fuel) (v := v) (e := e)
    as (tr & r & e' & Hrun & Htr & HP & Hr); try done.
  - intros v' g [Hon' _]. unfold aggressive_sleep, base_delay. rewrite Hon'.
    by destruct (CadenceFacts.uniform_bounds 2 4 g) as (? & ? & _).
  - intros v' sf ff now g r rm g' [Hon' Hlow'] Hop. cbn. split.
    + eapply StickyFacts.on_slot_detected_aggressive; eauto.
    + by rewrite (StickyFacts.on_slot_detected_range _ _ _ _ _ _ _ _ Hop).
  - exists tr, r, e'. repeat split; try done. intros c Hc. by apply Hr.
Qed.

Lemma aggressive_burst_never_ends_witness :
  exists tr r e',
    Main.while_true Scenario.wednesdays 3
      (Main.set_refresh_mode (Main.start [])
         (RefreshMode.set_aggressive_cycles RefreshMode.default 1))
      (Script.boot Scenario.failing_portal) = (r, e')
    /\ Main.trace e' = Main.trace (Script.boot Scenario.failing_portal) ++ tr
    /\ Forall aggressive_sleep tr
    /\ forall c, r = inr c ->
         RefreshMode.in_aggressive (Main.refresh_mode (Main.vars_of c)) = true.
Proof.
  apply (aggressive_burst_never_ends Scenario.wednesdays 3
           (Main.set_refresh_mode (Main.start [])
              (RefreshMode.set_aggressive_cycles RefreshMode.default 1))
           (Script.boot Scenario.failing_portal)).
  - reflexivity.
  - simpl. lia.
Defined.

(** X17.  The loop never calls [tick], so it never returns to the normal
    cadence: once the scheduler probes or is aggressive (with a range that
    starts above 0), it does so after every later cycle, and every random
    sleep has a base delay from 2 to 9 seconds, both ends included, not
    one from 13 to 40. *)
Theorem normal_cadence_never_returns {W : Type} `{!Outside W} (cfg : config)
    fuel v (e : Main.env) :
  RefreshMode.mode_of (Main.refresh_mode v) <> RefreshMode.Normal ->
  0 < fst (RefreshMode.aggro_range (Main.refresh_mode v)) ->
  exists tr r e',
    Main.while_true cfg fuel v e = (r, e')
    /\ Main.trace e' = Main.trace e ++ tr
    /\ Forall short_sleep tr
    /\ forall c, r = inr c ->
         RefreshMode.mode_of (Main.refresh_mode (Main.vars_of c))
         <> RefreshMode.Normal.
Proof.
  intros Hfast Hlow.
  destruct (RunFacts.while_true_yields cfg short_sleep
              (fun v' => RefreshMode.mode_of (Main.refresh_mode v') <> RefreshMode.Normal
                         /\ 0 < fst (RefreshMode.aggro_range (Main.refresh_mode v'))))
    with (fuel := fuel) (v := v) (e := e)
    as (tr & r & e' & Hrun & Htr & HP & Hr); try done.
  - intros v' g [Hfast' _]. by apply StickyFacts.fast_base_delay.
  - intros v' sf ff now g r rm g' [Hfast' Hlow'] Hop. cbn. split.
    + eapply StickyFacts.on_slot_detected_fast; eauto.
    + by rewrite (StickyFacts.on_slot_detected_range _ _ _ _ _ _ _ _ Hop).
  - exists tr, r, e'. repeat split; try done. intros c Hc. by apply Hr.
Qed.

Lemma normal_cadence_never_returns_witness :
  exists tr r e',
    Main.while_true Scenario.wednesdays 3
      (Main.set_refresh_mode (Main.start [])
         (RefreshMode.set_probe RefreshMode.default true (Some 0%Q)))
      (Script.boot Scenario.failing_portal) = (r, e')
    /\ Main.trace e' = Main.trace (Script.boot Scenario.failing_portal) ++ tr
    /\ Forall short_sleep tr
    /\ forall c, r = inr c ->
         RefreshMode.mode_of (Main.refresh_mode (Main.vars_of c))
         <> RefreshMode.Normal.
Proof.
  apply (normal_cadence_never_returns Scenario.wednesdays 3
           (Main.set_refresh_mode (Main.start [])
              (RefreshMode.set_probe RefreshMode.default true (Some 0%Q)))
           (Script.boot Scenario.failing_portal)).
  - simpl. discriminate.
  - simpl. lia.
Defined.

(** X18.  A failed reading of the dashboard never wipes the known bookings:
    after any run of the loop, [all_manual_bookings] is what it was before,
    or a list that is not empty. *)
Theorem known_bookings_are_never_wiped {W : Type} `{!Outside W} (cfg : config)
    fuel v (e : Main.env) :
  exists r e',
    Main.while_true cfg fuel v e = (r, e')
    /\ forall c, r = inr c ->
         Main.all_manual_bookings (Main.vars_of c) = Main.all_manual_bookings v
         \/ Main.all_manual_bookings (Main.vars_of c) <> [].
Proof.
  destruct (RunFacts.while_true_yields cfg (fun _ => True)
              (fun v' => Main.all_manual_bookings v' = Main.all_manual_bookings v
                         \/ Main.all_manual_bookings v' <> []))
    with (fuel := fuel) (v := v) (e := e)
    as (tr & r & e' & Hrun & _ & _ & Hr); try done.
  - intros _ _ v' b l _. by right.
  - by left.
  - by exists r, e'.
Qed.

Module BookFacts.

Import Main.

Lemma confirmations_app tr1 tr2 :
  confirmations (tr1 ++ tr2) = confirmations tr1 ++ confirmations tr2.
Proof.
  induction tr1 as [|ev tr1 IH]; [done|]. destruct ev; simpl; by rewrite ?IH.
Qed.

Lemma dry_run_loop_sends {W : Type} `{!Outside W} filtered (e : @env W) :
  dry_run_loop filtered e
  = (inr tt, mkenv (world e) (rng e)
               (trace e ++ map (fun s => Sent (dry_run_message s)) filtered)).
Proof.
  revert e. induction filtered as [|s rest IH]; intros e.
  { destruct e. cbn. by rewrite app_nil_r. }
  cbn [dry_run_loop]. MainFacts.run. rewrite IH. cbn.
  by rewrite <- app_assoc.
Qed.

End BookFacts.

(** X19.  A dry run ends the loop at the first candidates: with dry_run on,
    the part of a cycle that handles a list of candidates sends one silent
    message per candidate, in order, leaves the portal alone, does not
    sleep, and breaks out of [while True] with the variables unchanged. *)
Theorem dry_run_announces_and_stops {W : Type} `{!Outside W} (cfg : config)
    v filtered (e : Main.env) :
  default false (cfg_dry_run cfg) = true ->
  Main.book cfg v filtered e
  = (inr (Main.Break v),
     Main.mkenv (Main.world e) (Main.rng e)
       (Main.trace e ++ map (fun s => Sent (dry_run_message s)) filtered)).
Proof.
  intros Hdry. unfold Main.book. rewrite Hdry.
  unfold mbind, Main.M_bind, Main.bind. by rewrite BookFacts.dry_run_loop_sends.
Qed.

Lemma dry_run_announces_and_stops_witness :
  Main.book (mkconfig None None None None None None (Some true))
    (Main.start []) [Scenario.wed 1; Scenario.wed 3]
    (Script.boot Scenario.stale_page)
  = (inr (Main.Break (Main.start [])),
     Main.mkenv Scenario.stale_page Script.counting
       [Sent (dry_run_message (Scenario.wed 1));
        Sent (dry_run_message (Scenario.wed 3))]).
Proof.
  apply (dry_run_announces_and_stops
           (mkconfig None None None None None None (Some true))
           (Main.start []) [Scenario.wed 1; Scenario.wed 3]
           (Script.boot Scenario.stale_page)).
  reflexivity.
Defined.

(** X20.  The loop over the candidates never raises, and the slots that it
    hands on are its start list followed by the candidates whose
    reservation the portal answered with "success", in order; with
    auto_book it calls [confirm_booking] once for each of them, and without
    auto_book never. *)
Theorem reserve_loop_keeps_successes {W : Type} `{!Outside W} auto_book
    filtered booked_slots (e : Main.env) :
  exists tr e',
    Main.reserve_loop auto_book filtered booked_slots e
    = (inr (booked_slots ++ reserved filtered (reservations tr)), e')
    /\ Main.trace e' = Main.trace e ++ tr
    /\ length (confirmations tr)
       = if auto_book then length (reserved filtered (reservations tr)) else 0%nat.
Proof.
  revert booked_slots e.
  induction filtered as [|s rest IH]; intros booked_slots e.
  { exists [], e. MainFacts.run. rewrite !app_nil_r. by destruct auto_book. }
  cbn [Main.reserve_loop]. MainFacts.run.
  destruct (reserve_slot (element_id s) (Main.world e)) as [[result txt] w1] eqn:Hr.
  MainFacts.run.
  destruct (String.eqb result "success") eqn:Hsuccess.
  { destruct auto_book; MainFacts.run.
    - destruct (confirm_booking w1) as [ok w2] eqn:Hc. MainFacts.run.
      destruct ok; MainFacts.run;
        match goal with
        | |- context [Main.reserve_loop _ rest ?b ?e1] =>
            destruct (IH b e1) as (tr & e' & -> & Htr & Hlen)
        end;
        cbn in Htr; rewrite <- !app_assoc in Htr; cbn in Htr;
        refine (ex_intro _ _ (ex_intro _ e' (conj _ (conj Htr _))));
        cbn; rewrite ?Hsuccess; cbn; rewrite <- ?app_assoc; cbn;
        [reflexivity|by rewrite Hlen|reflexivity|by rewrite Hlen].
    - match goal with
      | |- context [Main.reserve_loop _ rest ?b ?e1] =>
          destruct (IH b e1) as (tr & e' & -> & Htr & Hlen)
      end.
      cbn in Htr; rewrite <- !app_assoc in Htr; cbn in Htr.
      refine (ex_intro _ _ (ex_intro _ e' (conj _ (conj Htr _))));
        cbn; rewrite ?Hsuccess; cbn; rewrite <- ?app_assoc; cbn;
        [reflexivity|done]. }
  destruct (String.eqb result "no_change") eqn:Hno.
  { match goal with
    | |- exists tr e', (_, ?e1) = _ /\ _ => eexists _, e1
    end.
    split; [|split].
    2: { cbn. rewrite <- app_assoc. reflexivity. }
    - cbn. rewrite Hsuccess. destruct rest; by rewrite app_nil_r.
    - cbn. rewrite Hsuccess. by destruct auto_book, rest. }
  destruct (String.eqb result "alert") eqn:Halert; MainFacts.run;
    match goal with
    | |- context [Main.reserve_loop _ rest ?b ?e1] =>
        destruct (IH b e1) as (tr & e' & -> & Htr & Hlen)
    end;
    cbn in Htr; rewrite <- !app_assoc in Htr; cbn in Htr;
    refine (ex_intro _ _ (ex_intro _ e' (conj _ (conj Htr _))));
    cbn; rewrite ?Hsuccess; [reflexivity|done|reflexivity|done].
Qed.

(** * The poll of the chat *)

Module TelegramFacts.

Import Telegram.

(** The scan does not look at the id it starts from. *)
Lemma scan_cons own start u rest :
  scan own start (u :: rest)
  = match message_of u with
    | None => (None, Some (update_id u))
    | Some (chat, text) =>
        if negb (String.eqb (Text.of_Z chat) own)
        then scan own (Some (update_id u)) rest
        else match text with
             | None => (None, Some (update_id u))
             | Some t =>
                 match command_of (lower (strip t)) with
                 | Some c => (Some c, Some (update_id u))
                 | None => scan own (Some (update_id u)) rest
                 end
             end
    end.
Proof. reflexivity. Qed.

Lemma scan_passed_over own start u rest :
  passed_over own u ->
  scan own start (u :: rest) = scan own (Some (update_id u)) rest.
Proof.
  intros (chat & text & Hmsg & Hcase). rewrite scan_cons, Hmsg.
  destruct (String.eqb (Text.of_Z chat) own) eqn:Hown; [|done].
  apply String.eqb_eq in Hown.
  destruct Hcase as [Hother|(t & -> & Hnone)]; [done|]. cbn. by rewrite Hnone.
Qed.

Lemma scan_orders own start u rest c :
  orders own u c -> scan own start (u :: rest) = (Some c, Some (update_id u)).
Proof.
  intros (chat & t & Hmsg & Hown & Hcmd). rewrite scan_cons, Hmsg.
  apply String.eqb_eq in Hown. rewrite Hown. cbn. by rewrite Hcmd.
Qed.

Lemma scan_some own start updates c stored :
  scan own start updates = (Some c, stored) ->
  exists pre u post,
    updates = pre ++ u :: post
    /\ Forall (passed_over own) pre
    /\ orders own u c
    /\ stored = Some (update_id u).
Proof.
  revert start. induction updates as [|u rest IH]; intros start Hscan; [done|].
  rewrite scan_cons in Hscan.
  destruct (message_of u) as [[chat text]|] eqn:Hmsg; [|done].
  destruct (String.eqb (Text.of_Z chat) own) eqn:Hown; cbn in Hscan.
  - apply String.eqb_eq in Hown. destruct text as [t|]; [|done].
    destruct (command_of (lower (strip t))) as [c'|] eqn:Hcmd.
    + injection Hscan as -> <-. exists [], u, rest.
      repeat split; [done|]. by exists chat, t.
    + destruct (IH _ Hscan) as (pre & u0 & post & -> & Hpre & Hu0 & ->).
      exists (u :: pre), u0, post. repeat split; [|done].
      constructor; [|done]. exists chat, (Some t). split; [done|]. right. eauto.
  - apply String.eqb_neq in Hown.
    destruct (IH _ Hscan) as (pre & u0 & post & -> & Hpre & Hu0 & ->).
    exists (u :: pre), u0, post. repeat split; [|done].
    constructor; [|done]. exists chat, text. split; [done|]. by left.
Qed.

(** Updates that are passed over only change the id that is stored. *)
Lemma scan_first own start pre rest :
  Forall (passed_over own) pre ->
  exists start', scan own start (pre ++ rest) = scan own start' rest.
Proof.
  intros Hpre. revert start.
  induction Hpre as [|u pre Hu _ IH]; intros start; [by exists start|].
  cbn [app]. rewrite (scan_passed_over _ _ _ _ Hu).
  destruct (IH (Some (update_id u))) as (start' & ->). by exists start'.
Qed.

End TelegramFacts.

(** X21.  A poll returns a command exactly when the batch holds an update
    of the own chat whose text, stripped and in lower case, is one of the
    four commands, and all updates before it are updates of other chats or
    texts that are no commands; the command is that of the first such
    update, the id stored is its id, and the updates behind it are not
    looked at. *)
Theorem poll_returns_first_command self updates c self' :
  Telegram.check_commands self (Telegram.Result updates) = (Some c, self')
  <-> exists pre u post,
        updates = pre ++ u :: post
        /\ Forall (Telegram.passed_over (Telegram.chat_id self)) pre
        /\ Telegram.orders (Telegram.chat_id self) u c
        /\ self' = Telegram.mkbot (Telegram.chat_id self)
                     (Some (Telegram.update_id u)).
Proof.
  unfold Telegram.check_commands. split.
  - destruct (Telegram.scan _ _ updates) as [cmd stored] eqn:Hscan.
    intros [= -> <-].
    destruct (TelegramFacts.scan_some _ _ _ _ _ Hscan)
      as (pre & u & post & -> & Hpre & Hu & ->).
    by exists pre, u, post.
  - intros (pre & u & post & -> & Hpre & Hu & ->).
    destruct (TelegramFacts.scan_first (Telegram.chat_id self)
                (Telegram.last_checked_update_id self) pre (u :: post) Hpre)
      as (start' & ->).
    by rewrite (TelegramFacts.scan_orders _ _ _ _ _ Hu).
Qed.

(** X22.  An update without a message, or one of the own chat without a
    text, ends the poll: when only updates that are passed over come before
    it, the poll returns no command whatever comes behind it, and stores
    the id of that update, so that the next poll starts behind it. *)
Theorem update_without_text_ends_poll self pre u post :
  Forall (Telegram.passed_over (Telegram.chat_id self)) pre ->
  Telegram.message_of u = None
  \/ (exists chat, Telegram.message_of u = Some (chat, None)
                   /\ Text.of_Z chat = Telegram.chat_id self) ->
  Telegram.check_commands self (Telegram.Result (pre ++ u :: post))
  = (None, Telegram.mkbot (Telegram.chat_id self) (Some (Telegram.update_id u)))
  /\ Telegram.offset (Telegram.mkbot (Telegram.chat_id self)
                        (Some (Telegram.update_id u)))
     = Telegram.update_id u + 1.
Proof.
  intros Hpre Hu. split; [|done]. unfold Telegram.check_commands.
  destruct (TelegramFacts.scan_first (Telegram.chat_id self)
              (Telegram.last_checked_update_id self) pre (u :: post) Hpre)
    as (start' & ->).
  rewrite TelegramFacts.scan_cons.
  destruct Hu as [->|(chat & -> & Hown)]; [done|].
  apply String.eqb_eq in Hown. by rewrite Hown.
Qed.

Lemma update_without_text_ends_poll_witness :
  Telegram.check_commands (Telegram.mkbot "42" (Some 7))
    (Telegram.Result
       [Telegram.mkupdate 8 (Some (9, Some "/stop"));
        Telegram.mkupdate 9 (Some (42, None));
        Telegram.mkupdate 10 (Some (42, Some "/stop"))])
  = (None, Telegram.mkbot "42" (Some 9)).
Proof.
  refine (proj1 (update_without_text_ends_poll (Telegram.mkbot "42" (Some 7))
                   [Telegram.mkupdate 8 (Some (9, Some "/stop"))]
                   (Telegram.mkupdate 9 (Some (42, None)))
                   [Telegram.mkupdate 10 (Some (42, Some "/stop"))] _ _)).
  - constructor; [|constructor]. exists 9, (Some "/stop"). split; [reflexivity|].
    left. vm_compute. discriminate.
  - right. exists 42. split; reflexivity.
Defined.
